(** * viur-core: the request cache ([cache.py]) and [booleanBone]

    A shallow embedding of [keyFromArgs], [wrapCallable]/[wrapF],
    [enableCache]'s assertion and [flushCache] from [cache.py], and of
    [booleanBone.serialize]/[unserialize] from [bones/booleanBone.py],
    followed by the properties of the specification that concern them.

    Python dictionaries are finite maps ([gmap]) keyed by strings, Python
    [str] values are byte strings ([string]), integers are [Z].  The
    datastore is a finite map from entity names to cache entities. *)

From Stdlib Require Import ZArith String Ascii List Lia.
From stdpp Require Import base option list sorting gmap strings pretty.

Open Scope string_scope.
Open Scope Z_scope.

(** ** Python values and outcomes *)

(** The Python objects that occur as argument values, defaults, user keys
    and handler results. *)
Inductive value : Type :=
  | VNone
  | VBool (b : bool)
  | VInt (n : Z)
  | VStr (s : string).

#[global] Instance value_eq_dec : EqDecision value.
Proof. solve_decision. Defined.

(** Exceptions that the modelled code can raise by itself. *)
Inductive exn : Type :=
  | AssertionError (msg : string)
  | IndexError
  | OverflowError.

#[global] Instance exn_eq_dec : EqDecision exn.
Proof. solve_decision. Defined.

(** A call either returns or raises. *)
Inductive outcome (A : Type) : Type :=
  | Return (a : A)
  | Raise (e : exn).
Arguments Return {A} a.
Arguments Raise {A} e.

#[global] Instance outcome_bind : MBind outcome :=
  fun A B (k : A -> outcome B) (m : outcome A) =>
    match m with
    | Return a => k a
    | Raise e => Raise e
    end.

(** ** The collaborators of [keyFromArgs] *)

(** What [keyFromArgs] inspects of the callable [f]. *)
Record func : Type := {
  co_varnames : list string;
  co_argcount : nat;
  func_defaults : option (list value)
}.

(** [list(f.__code__.co_varnames)[1: f.__code__.co_argcount]] *)
Definition argsOrder (f : func) : list string :=
  drop 1 (take (co_argcount f) (co_varnames f)).

(** [list(f.func_defaults or [])] *)
Definition defaultsOf (f : func) : list value :=
  default [] (func_defaults f).

(** The user record returned by [utils.getCurrentUser()]; only its ["key"]
    is read. *)
Record user : Type := { user_key : value }.

(** The result of calling [conf["viur.cacheEnvironmentKey"]()]. *)
Inductive envResult : Type :=
  | EnvValue (v : value)
  | EnvRuntimeError.

(** What the code reads from [conf], [utils] and [request.current.get()]. *)
Record context : Type := {
  conf_disableCache : bool;                        (* conf["viur.disableCache"] *)
  conf_cacheEnvironmentKey : option envResult;     (* conf["viur.cacheEnvironmentKey"] *)
  currentUser : option user;                       (* utils.getCurrentUser() *)
  req_disableCache : bool;                         (* currentRequest.disableCache *)
  req_args : list string;                          (* currentRequest.args *)
  req_pathlist : list string;                      (* currentRequest.pathlist *)
  req_language : string;                           (* currentRequest.language *)
  req_CURRENT_VERSION_ID : option string           (* request.environ["CURRENT_VERSION_ID"] *)
}.

(** ** [keyFromArgs] *)

(** Lines 48-50: the defaults are mapped onto the last parameters;
    [reversedArgsOrder.pop(0)] raises [IndexError] on an empty list. *)
Fixpoint map_defaults (reversedArgsOrder : list string) (revDefaults : list value)
    (res : gmap string value) {struct revDefaults} : outcome (gmap string value) :=
  match revDefaults with
  | [] => Return res
  | defaultValue :: ds =>
      match reversedArgsOrder with
      | [] => Raise IndexError
      | n :: ns => map_defaults ns ds (<[n := defaultValue]> res)
      end
  end.

(** Lines 53-57: the loop over [range(0, min(len(args), len(argsOrder)))]. *)
Fixpoint map_args (evaluatedArgs : list string) (names : list string) (args : list value)
    (setArgs : list string) (res : gmap string value) : list string * gmap string value :=
  match names, args with
  | n :: ns, a :: args' =>
      if bool_decide (n ∈ evaluatedArgs)
      then map_args evaluatedArgs ns args' (setArgs ++ [n]) (<[n := a]> res)
      else map_args evaluatedArgs ns args' setArgs res
  | _, _ => (setArgs, res)
  end.

Definition dupMessage (k : string) : string :=
  "Got dupplicate arguments for " ++ k.

(** Lines 59-63: the loop over [kwargs.items()]. *)
Fixpoint map_kwargs (evaluatedArgs setArgs : list string) (items : list (string * value))
    (res : gmap string value) : outcome (gmap string value) :=
  match items with
  | [] => Return res
  | (k, v) :: rest =>
      if bool_decide (k ∈ evaluatedArgs)
      then if bool_decide (k ∈ setArgs)
           then Raise (AssertionError (dupMessage k))
           else map_kwargs evaluatedArgs setArgs rest (<[k := v]> res)
      else map_kwargs evaluatedArgs setArgs rest res
  end.

(** Lines 64-77; [None] stands for the early [return (None)]. *)
Definition map_user (userSensitive : Z) (u : option user)
    (res : gmap string value) : option (gmap string value) :=
  if negb (userSensitive =? 0) then
    if (userSensitive =? 1) && bool_decide (is_Some u) then None
    else if userSensitive =? 2 then
      Some (<["__user" := match u with Some _ => VStr "__ISUSER" | None => VNone end]> res)
    else if userSensitive =? 3 then
      Some (<["__user" := match u with Some usr => user_key usr | None => VNone end]> res)
    else Some res
  else Some res.

(** Lines 78-79. *)
Definition map_lang (languageSensitive : bool) (ctx : context)
    (res : gmap string value) : gmap string value :=
  if languageSensitive then <["__lang" := VStr (req_language ctx)]> res else res.

(** Lines 80-84; [None] stands for the [return None] of the handler of
    [RuntimeError]. *)
Definition map_env (ctx : context) (res : gmap string value) : option (gmap string value) :=
  match conf_cacheEnvironmentKey ctx with
  | None => Some res
  | Some (EnvValue v) => Some (<["_cacheEnvironment" := v]> res)
  | Some EnvRuntimeError => None
  end.

(** [s.split('.')[0]] *)
Fixpoint before_dot (s : string) : string :=
  match s with
  | EmptyString => EmptyString
  | String c s' => if Ascii.eqb c "."%char then EmptyString else String c (before_dot s')
  end.

(** Lines 86-90. *)
Definition appVersion (ctx : context) : string :=
  match req_CURRENT_VERSION_ID ctx with
  | Some v => before_dot v
  | None => ""
  end.

(** [res.sort(key=lambda x: x[0])]: items ordered by their key. *)
Definition key_le : relation (string * value) :=
  fun x y => String.leb x.1 y.1 = true.

#[global] Instance key_le_dec : RelDecision key_le.
Proof. intros x y. unfold key_le. apply _. Defined.

Definition sorted_items (res : gmap string value) : list (string * value) :=
  merge_sort key_le (map_to_list res).

(** Lines 92-93: [all([x in res.keys() for x in argsOrder])]. *)
Definition all_satisfied (names : list string) (res : gmap string value) : bool :=
  forallb (fun x => bool_decide (is_Some (res !! x))) names.

(** Lines 85-97, after the early returns: the sorted item list that is
    handed to the digest, or [None] when a parameter is not satisfied. *)
Definition finish_items (f : func) (path : string) (ctx : context)
    (res : gmap string value) : option (list (string * value)) :=
  let res := <["__path" := VStr path]> res in
  let res := <["__appVersion" := VStr (appVersion ctx)]> res in
  if negb (all_satisfied (argsOrder f) res) then None
  else Some (sorted_items res).

(** Lines 45-63: the argument dictionary before the context is folded in. *)
Definition bind_arguments (f : func) (evaluatedArgs : list string)
    (args : list value) (kwargs : gmap string value) : outcome (gmap string value) :=
  res ← map_defaults (reverse (argsOrder f)) (reverse (defaultsOf f)) ∅;
  let '(setArgs, res) := map_args evaluatedArgs (argsOrder f) args [] res in
  map_kwargs evaluatedArgs setArgs (map_to_list kwargs) res.

(** Lines 64-97. *)
Definition context_items (f : func) (userSensitive : Z) (languageSensitive : bool)
    (path : string) (ctx : context) (res : gmap string value)
    : option (list (string * value)) :=
  match map_user userSensitive (currentUser ctx) res with
  | None => None
  | Some res =>
      match map_env ctx (map_lang languageSensitive ctx res) with
      | None => None
      | Some res => finish_items f path ctx res
      end
  end.

(** Lines 45-97 of [keyFromArgs]: everything up to the digest.  The
    request context [ctx] stands for what the function reads from [utils],
    [request] and [conf]. *)
Definition keyItems (f : func) (userSensitive : Z) (languageSensitive : bool)
    (evaluatedArgs : list string) (path : string) (args : list value)
    (kwargs : gmap string value) (ctx : context)
    : outcome (option (list (string * value))) :=
  res ← bind_arguments f evaluatedArgs args kwargs;
  Return (context_items f userSensitive languageSensitive path ctx res).

(** ** Notions used in the statements *)

(** Lines 78-91 on the dictionary: language, environment key, path and
    application version; [None] when the environment key fails. *)
Definition final_dict (languageSensitive : bool) (path : string) (ctx : context)
    (res : gmap string value) : option (gmap string value) :=
  match map_env ctx (map_lang languageSensitive ctx res) with
  | None => None
  | Some res => Some (<["__appVersion" := VStr (appVersion ctx)]> (<["__path" := VStr path]> res))
  end.

(** Lines 45-50: the dictionary of the declared defaults. *)
Definition default_dict (f : func) : outcome (gmap string value) :=
  map_defaults (reverse (argsOrder f)) (reverse (defaultsOf f)) ∅.

(** The dictionary of the positional bindings; a later binding of a name
    replaces an earlier one. *)
Definition positional_dict (evaluatedArgs names : list string) (args : list value)
    : gmap string value :=
  list_to_map (reverse (filter (fun nv => nv.1 ∈ evaluatedArgs) (zip names args))).

(** The keys that [keyFromArgs] fills from the request context. *)
Definition context_keys : list string :=
  ["__user"; "__lang"; "_cacheEnvironment"; "__path"; "__appVersion"].

(** The defaults never outnumber the parameters after the receiver, so
    that [reversedArgsOrder.pop(0)] does not fail. *)
Definition defaults_fit (f : func) : Prop :=
  (length (defaultsOf f) <= length (argsOrder f))%nat.

(** Some allowlisted parameter is given by position and again by keyword. *)
Definition has_duplicate (f : func) (evaluatedArgs : list string)
    (args : list value) (kwargs : gmap string value) : bool :=
  existsb (fun k => bool_decide (k ∈ evaluatedArgs) && bool_decide (is_Some (kwargs !! k)))
          (take (length args) (argsOrder f)).

(** The names that the positional loop binds. *)
Definition positional_names (evaluatedArgs names : list string) (args : list value)
    : list string :=
  filter (fun n => n ∈ evaluatedArgs) (take (length args) names).

(** The allowlisted part of the positional arguments: the pairs of
    parameter name and value that the positional loop binds. *)
Definition listed_pairs (evaluatedArgs names : list string) (args : list value)
    : list (string * value) :=
  filter (fun nv => nv.1 ∈ evaluatedArgs) (zip names args).

(** The allowlisted part of the keyword arguments. *)
Definition listed_kwargs (evaluatedArgs : list string) (kwargs : gmap string value)
    : gmap string value :=
  filter (fun kv => kv.1 ∈ evaluatedArgs) kwargs.

(** One step of the keyword loop when nothing is raised. *)
Definition bind_item (res : gmap string value) (kv : string * value) : gmap string value :=
  <[kv.1 := kv.2]> res.

(** The keyword item [kv] is allowlisted and already set by position. *)
Definition clashes (evaluatedArgs setArgs : list string) (kv : string * value) : Prop :=
  kv.1 ∈ evaluatedArgs /\ kv.1 ∈ setArgs.

(** The same request seen by another caller. *)
Definition with_user (u : option user) (ctx : context) : context :=
  {| conf_disableCache := conf_disableCache ctx;
     conf_cacheEnvironmentKey := conf_cacheEnvironmentKey ctx;
     currentUser := u;
     req_disableCache := req_disableCache ctx;
     req_args := req_args ctx;
     req_pathlist := req_pathlist ctx;
     req_language := req_language ctx;
     req_CURRENT_VERSION_ID := req_CURRENT_VERSION_ID ctx |}.

(** The same request under another deployed version. *)
Definition with_version (v : option string) (ctx : context) : context :=
  {| conf_disableCache := conf_disableCache ctx;
     conf_cacheEnvironmentKey := conf_cacheEnvironmentKey ctx;
     currentUser := currentUser ctx;
     req_disableCache := req_disableCache ctx;
     req_args := req_args ctx;
     req_pathlist := req_pathlist ctx;
     req_language := req_language ctx;
     req_CURRENT_VERSION_ID := v |}.

(** The same request with another result of the environment key. *)
Definition with_env (e : option envResult) (ctx : context) : context :=
  {| conf_disableCache := conf_disableCache ctx;
     conf_cacheEnvironmentKey := e;
     currentUser := currentUser ctx;
     req_disableCache := req_disableCache ctx;
     req_args := req_args ctx;
     req_pathlist := req_pathlist ctx;
     req_language := req_language ctx;
     req_CURRENT_VERSION_ID := req_CURRENT_VERSION_ID ctx |}.

(** Two outcomes agree when they return the same value or raise the same
    kind of exception. *)
Definition same_kind (e1 e2 : exn) : Prop :=
  match e1, e2 with
  | AssertionError _, AssertionError _ => True
  | IndexError, IndexError => True
  | OverflowError, OverflowError => True
  | _, _ => False
  end.

Definition agree {A : Type} (o1 o2 : outcome A) : Prop :=
  match o1, o2 with
  | Return a, Return b => a = b
  | Raise e1, Raise e2 => same_kind e1 e2
  | _, _ => False
  end.

Section Cache.

(** [sha512(str(res).encode("UTF8")).hexdigest()], as a function of the
    sorted item list it is applied to: [hashlib] and the built-in [str]
    are outside the repository. *)
Variable digest : list (string * value) -> string.

(** [keyFromArgs]: lines 98-100 applied to the items. *)
Definition keyFromArgs (f : func) (userSensitive : Z) (languageSensitive : bool)
    (evaluatedArgs : list string) (path : string) (args : list value)
    (kwargs : gmap string value) (ctx : context) : outcome (option string) :=
  items ← keyItems f userSensitive languageSensitive evaluatedArgs path args kwargs ctx;
  Return (option_map digest items).

(** ** [wrapCallable] and [enableCache] *)

(** An entity of kind [viurCacheName], with the four properties that
    [wrapF] writes.  Such an entity is never empty, hence always true in
    [if dbRes:]. *)
Record cacheEntity : Type := {
  ent_data : value;
  ent_creationtime : Z;
  ent_path : string;
  ent_content_type : string
}.

(** The datastore operations issued through [db]. *)
Inductive dbop : Type :=
  | DbGet (name : string)
  | DbPut (name : string).

(** The mutable surroundings of a request: the datastore (entities of
    kind [viurCacheName] by name), the [Content-Type] header of the
    response, the clock read by [datetime.now()] in microseconds since
    [datetime.min], and the datastore operations issued so far. *)
Record world : Type := {
  store : gmap string cacheEntity;
  response_content_type : string;
  now : Z;
  dblog : list dbop
}.

(** The body of the wrapped callable [f(self, *args, **kwargs)]: it
    returns a value and may change its surroundings. *)
Definition handler : Type :=
  list value -> gmap string value -> world -> value * world.

(** [db.Get(db.Key.from_path(viurCacheName, key))], with
    [EntityNotFoundError] turned into [None]. *)
Definition db_Get (key : string) (w : world) : option cacheEntity * world :=
  (store w !! key,
   {| store := store w; response_content_type := response_content_type w;
      now := now w; dblog := dblog w ++ [DbGet key] |}).

(** [db.Put(dbEntity)] for [db.Entity(viurCacheName, name=key)]. *)
Definition db_Put (key : string) (e : cacheEntity) (w : world) : world :=
  {| store := <[key := e]> (store w); response_content_type := response_content_type w;
     now := now w; dblog := dblog w ++ [DbPut key] |}.

(** [currentRequest.response.headers['Content-Type'] = ...] *)
Definition set_content_type (ct : string) (w : world) : world :=
  {| store := store w; response_content_type := ct; now := now w; dblog := dblog w |}.

(** [l[: offset]] for a possibly negative [offset]. *)
Definition slice_to {A : Type} (l : list A) (offset : Z) : list A :=
  if offset <? 0 then take (Z.to_nat (Z.of_nat (length l) + offset)) l
  else take (Z.to_nat offset) l.

(** Line 118: [-len(currentRequest.args) or len(currentRequest.pathlist)]. *)
Definition request_offset (ctx : context) : Z :=
  let n := - Z.of_nat (length (req_args ctx)) in
  if n =? 0 then Z.of_nat (length (req_pathlist ctx)) else n.

(** Line 119. *)
Definition request_path (ctx : context) : string :=
  "/" ++ String.concat "/" (slice_to (req_pathlist ctx) (request_offset ctx)).

(** [timedelta(seconds=t)] in microseconds; the number of days of a
    [timedelta] lies between -999999999 and 999999999, beyond that the
    constructor raises [OverflowError]. *)
Definition timedelta_seconds (t : Z) : outcome Z :=
  if (-999999999 <=? t / 86400) && (t / 86400 <=? 999999999)
  then Return (t * 1000000)
  else Raise OverflowError.

(** [datetime.max], in microseconds since [datetime.min]: the last
    microsecond of the year 9999. *)
Definition datetime_max : Z := 3652059 * 86400 * 1000000 - 1.

(** [d - td] for a [datetime] and a [timedelta]: [OverflowError] when the
    result is not a [datetime]. *)
Definition datetime_sub (d td : Z) : outcome Z :=
  if (0 <=? d - td) && (d - td <=? datetime_max)
  then Return (d - td)
  else Raise OverflowError.

(** Lines 134-135: [not maxCacheTime or
    dbRes["creationtime"] > datetime.now() - timedelta(seconds=maxCacheTime)]. *)
Definition fresh_enough (maxCacheTime : option Z) (e : cacheEntity) (w : world)
    : outcome bool :=
  match maxCacheTime with
  | None => Return true
  | Some t =>
      if t =? 0 then Return true
      else
        td ← timedelta_seconds t;
        cutoff ← datetime_sub (now w) td;
        Return (ent_creationtime e >? cutoff)
  end.

(** Lines 141-150: rebuild the response and write it through. *)
Definition rebuild (body : handler) (key path : string)
    (args : list value) (kwargs : gmap string value) (w : world) : value * world :=
  let '(res, w) := body args kwargs w in
  let dbEntity :=
    {| ent_data := res; ent_creationtime := now w; ent_path := path;
       ent_content_type := response_content_type w |} in
  (res, db_Put key dbEntity w).

(** [wrapF], the closure returned by [wrapCallable]. *)
Definition wrapF (f : func) (body : handler) (urls : list string) (userSensitive : Z)
    (languageSensitive : bool) (evaluatedArgs : list string) (maxCacheTime : option Z)
    (ctx : context) (args : list value) (kwargs : gmap string value)
    (w : world) : outcome (value * world) :=
  if conf_disableCache ctx || req_disableCache ctx then Return (body args kwargs w)
  else
    let path := request_path ctx in
    if negb (bool_decide (path ∈ urls)) then Return (body args kwargs w)
    else
      key ← keyFromArgs f userSensitive languageSensitive evaluatedArgs path args kwargs ctx;
      match key with
      | None => Return (body args kwargs w)
      | Some key =>
          if bool_decide (key = "") then Return (body args kwargs w)
          else
            let '(dbRes, w) := db_Get key w in
            match dbRes with
            | Some e =>
                fresh ← fresh_enough maxCacheTime e w;
                if (fresh : bool)
                then Return (ent_data e, set_content_type (ent_content_type e) w)
                else Return (rebuild body key path args kwargs w)
            | None => Return (rebuild body key path args kwargs w)
            end
      end.

End Cache.

(** [x.startswith("_")] *)
Definition startswith_underscore (x : string) : bool :=
  match x with
  | String c _ => Ascii.eqb c "_"%char
  | EmptyString => false
  end.

(** The assertion of [enableCache]:
    [not any([x.startswith("_") for x in evaluatedArgs])]. *)
Definition enableCache_assert (evaluatedArgs : list string) : bool :=
  negb (existsb startswith_underscore evaluatedArgs).

Definition underscoreMessage : string :=
  "A evaluated Parameter cannot start with an underscore!".

(** The wrapped callable: what [wrapF] needs besides the request. *)
Definition wrapped : Type :=
  context -> list value -> gmap string value -> world -> outcome (value * world).

(** [wrapCallable] returns the closure [wrapF]. *)
Definition wrapCallable (digest : list (string * value) -> string)
    (f : func) (body : handler) (urls : list string) (userSensitive : Z)
    (languageSensitive : bool) (evaluatedArgs : list string)
    (maxCacheTime : option Z) : wrapped :=
  wrapF digest f body urls userSensitive languageSensitive evaluatedArgs maxCacheTime.

(** [enableCache]: the assertion, then the decorator
    [lambda f: wrapCallable(f, ...)]. *)
Definition enableCache (digest : list (string * value) -> string)
    (urls : list string) (userSensitive : Z) (languageSensitive : bool)
    (evaluatedArgs : list string) (maxCacheTime : option Z)
    : outcome (func -> handler -> wrapped) :=
  if enableCache_assert evaluatedArgs
  then Return (fun f body =>
         wrapCallable digest f body urls userSensitive languageSensitive
           evaluatedArgs maxCacheTime)
  else Raise (AssertionError underscoreMessage).

(** The same surroundings [dt] microseconds later. *)
Definition later (dt : Z) (w : world) : world :=
  {| store := store w; response_content_type := response_content_type w;
     now := now w + dt; dblog := dblog w |}.

(** [timedelta(seconds=t)] and the cut-off time [datetime.now() - ...]
    of line 135 are within the ranges of [timedelta] and [datetime]. *)
Definition cutoff_in_range (t : Z) (w : world) : Prop :=
  (-999999999 <= t / 86400 <= 999999999) /\
  (0 <= now w - t * 1000000 <= datetime_max).

(** The same surroundings with another datastore content. *)
Definition with_store (st : gmap string cacheEntity) (w : world) : world :=
  {| store := st; response_content_type := response_content_type w;
     now := now w; dblog := dblog w |}.

(** A handler body that leaves the entities of kind [viurCacheName] alone. *)
Definition keeps_store (body : handler) : Prop :=
  forall args kwargs w, store (body args kwargs w).2 = store w.

(** Every stored entity belongs to one of the routes [urls]. *)
Definition paths_within (urls : list string) (st : gmap string cacheEntity) : Prop :=
  forall k e, st !! k = Some e -> ent_path e ∈ urls.

(** ** [flushCache] *)

(** [s.rstrip("*")] *)
Fixpoint rstrip_star (s : string) : string :=
  match s with
  | EmptyString => EmptyString
  | String c s' =>
      match rstrip_star s' with
      | EmptyString => if Ascii.eqb c "*"%char then EmptyString else String c EmptyString
      | r => String c r
      end
  end.

(** [s.endswith("*")] *)
Fixpoint endswith_star (s : string) : bool :=
  match s with
  | EmptyString => false
  | String c EmptyString => Ascii.eqb c "*"%char
  | String _ s' => endswith_star s'
  end.

(** [u"\ufffd"], in UTF-8. *)
Definition ufffd : string :=
  String "239"%char (String "191"%char (String "189"%char EmptyString)).

(** [db.Query(viurCacheName).filter(...).iter(keysOnly=True)]: the names of
    the entities whose [path] passes the filters. *)
Definition query_keys (flt : string -> bool) (st : gmap string cacheEntity) : list string :=
  (map_to_list (filter (fun kv => flt (ent_path kv.2) = true) st)).*1.

(** [for item in items: db.Delete(item)] *)
Definition delete_all (items : list string) (st : gmap string cacheEntity)
    : gmap string cacheEntity :=
  foldl (fun st item => delete item st) st items.

(** The filter ["path =", stem]. *)
Definition path_eq (stem p : string) : bool := String.eqb p stem.

(** The filters ["path >", stem] and ["path <", stem + u"\ufffd"]. *)
Definition path_between (stem p : string) : bool :=
  String.ltb stem p && String.ltb p (stem ++ ufffd).

(** The body of [flushCache] ([tasks.callDeferred] only postpones its
    run); the datastore orders strings by their UTF-8 bytes. *)
Definition flushCache (prefix : string) (st : gmap string cacheEntity)
    : gmap string cacheEntity :=
  let st := delete_all (query_keys (path_eq (rstrip_star prefix)) st) st in
  if endswith_star prefix then
    delete_all (query_keys (path_between (rstrip_star prefix)) st) st
  else st.

(** The paths that [flushCache prefix] removes. *)
Definition flushed (prefix p : string) : bool :=
  path_eq (rstrip_star prefix) p
  || (endswith_star prefix && path_between (rstrip_star prefix) p).

(** A path lies under [stem] when it is [stem] itself or extends it by a
    rest that is not empty and sorts below [u"\ufffd"]. *)
Definition under_stem (stem p : string) : Prop :=
  p = stem \/
  exists rest, p = stem ++ rest /\ rest <> "" /\ String.ltb rest ufffd = true.

(** Strings of decimal digits, and numerals with an optional sign. *)
Definition is_digit (c : ascii) : bool :=
  bool_decide (c ∈ ["0"; "1"; "2"; "3"; "4"; "5"; "6"; "7"; "8"; "9"]%char).

Fixpoint all_digits (s : string) : bool :=
  match s with
  | EmptyString => true
  | String c s' => is_digit c && all_digits s'
  end.

Definition numeral (s : string) : bool :=
  match s with
  | String c s' => if Ascii.eqb c "-"%char then all_digits s' else all_digits s
  | EmptyString => true
  end.

(** ** [booleanBone] *)

Module booleanBone.

(** The built-in [str] on the modelled values. *)
Definition str (v : value) : string :=
  match v with
  | VNone => "None"
  | VBool true => "True"
  | VBool false => "False"
  | VInt n => pretty n
  | VStr s => s
  end.

Definition trueStrs : list string := [str (VBool true); "1"; "yes"].

(** [serialize] writes into [entity] and returns it. *)
Definition serialize (valuesCache : gmap string value) (name : string)
    (entity : gmap string value) : gmap string value :=
  <[name := default (VBool false) (valuesCache !! name)]> entity.

(** [unserialize] updates [valuesCache] and returns [True]. *)
Definition unserialize (valuesCache : gmap string value) (name : string)
    (expando : gmap string value) : gmap string value * bool :=
  match expando !! name with
  | Some val =>
      if bool_decide (str val ∈ trueStrs)
      then (<[name := VBool true]> valuesCache, true)
      else (<[name := VBool false]> valuesCache, true)
  | None => (valuesCache, true)
  end.

(** The stored values that read as [True]. *)
Definition truthy : list value :=
  [VBool true; VInt 1; VStr "True"; VStr "1"; VStr "yes"].

(** The values that [__init__] accepts as [defaultValue]. *)
Definition accepted_defaults : list value :=
  [VBool true; VBool false; VInt 1; VInt 0].

(** [str(value) in self.trueStrs] *)
Definition isTrue (v : value) : bool := bool_decide (str v ∈ trueStrs).

(** Python's [==] on the modelled values: [True == 1] and [False == 0]. *)
Definition py_eq (x y : value) : bool :=
  match x, y with
  | VNone, VNone => true
  | VBool a, VBool b => Bool.eqb a b
  | VBool a, VInt n | VInt n, VBool a => n =? (if a then 1 else 0)
  | VInt n, VInt m => n =? m
  | VStr a, VStr b => String.eqb a b
  | _, _ => false
  end.

(** [x in l] *)
Definition py_in (x : value) (l : list value) : bool := existsb (py_eq x) l.

(** [__init__]: the assertion on [defaultValue]; the call of the base
    class, which is outside the repository, is left out. *)
Definition init (defaultValue : value) : outcome value :=
  if py_in defaultValue [VBool true; VBool false]
  then Return defaultValue
  else Raise (AssertionError "").

(** The two severities that [fromClient] uses. *)
Inductive ReadFromClientErrorSeverity : Type :=
  | NotSet
  | Empty.

Record ReadFromClientError : Type := {
  severity : ReadFromClientErrorSeverity;
  fieldPath : string;
  errorMessage : string
}.

(** What [fromClient] returns: [False], or a list of errors. *)
Inductive clientResult : Type :=
  | ReturnedFalse
  | Errors (errs : list ReadFromClientError).

(** [fromClient].  [isInvalid] is the method of the base class, which is
    outside the repository: [None] stands for a result that is false,
    [Some err] for an error message. *)
Definition fromClient (isInvalid : value -> option string)
    (valuesCache : gmap string value) (name : string)
    (data : gmap string value) : gmap string value * clientResult :=
  match data !! name with
  | None =>
      (valuesCache,
       Errors [{| severity := NotSet; fieldPath := name;
                  errorMessage := "Field not submitted" |}])
  | Some value =>
      let value := VBool (if bool_decide (str value ∈ trueStrs) then true else false) in
      match isInvalid value with
      | None => (<[name := value]> valuesCache, ReturnedFalse)
      | Some err =>
          (valuesCache,
           Errors [{| severity := Empty; fieldPath := name; errorMessage := err |}])
      end
  end.

(** [buildDBFilter]; [base] is the method of the base class. *)
Definition buildDBFilter {Skel Filter : Type}
    (base : string -> Skel -> Filter -> gmap string value -> option string -> Filter)
    (name : string) (skel : Skel) (dbFilter : Filter)
    (rawFilter : gmap string value) (prefix : option string) : Filter :=
  match rawFilter !! name with
  | Some val =>
      let val := VBool (if bool_decide (str val ∈ trueStrs) then true else false) in
      base name skel dbFilter {[name := val]} prefix
  | None => dbFilter
  end.

End booleanBone.

(** ** Sample data *)

(** A sample digest for running the definitions: it writes the keys of
    the items one after the other. *)
Definition show_value (v : value) : string :=
  match v with
  | VNone => "None"
  | VBool true => "True"
  | VBool false => "False"
  | VInt n => pretty n
  | VStr s => "'" ++ s ++ "'"
  end.

Definition sample_digest (items : list (string * value)) : string :=
  "#" ++ String.concat ";" (map (fun kv => kv.1 ++ "=" ++ show_value kv.2) items).

Definition render : func :=
  {| co_varnames := ["self"; "id"; "order"]; co_argcount := 3;
     func_defaults := Some [VStr "asc"] |}.

Definition ctx0 : context :=
  {| conf_disableCache := false; conf_cacheEnvironmentKey := None;
     currentUser := None; req_disableCache := false; req_args := [];
     req_pathlist := ["page"; "view"]; req_language := "en";
     req_CURRENT_VERSION_ID := Some "7.1234" |}.


(** A handler [view(self, key, style)] without defaults. *)
Definition view : func :=
  {| co_varnames := ["self"; "key"; "style"]; co_argcount := 3;
     func_defaults := None |}.

Definition alice : user := {| user_key := VStr "alice" |}.
Definition bob : user := {| user_key := VStr "bob" |}.

(** [def f(self=0, id=1)]: the receiver has a default too. *)
Definition receiver_default : func :=
  {| co_varnames := ["self"; "id"]; co_argcount := 2;
     func_defaults := Some [VInt 0; VInt 1] |}.

(** [def render(self, id, **kw)]. *)
Definition render_kw : func :=
  {| co_varnames := ["self"; "id"; "kw"]; co_argcount := 2;
     func_defaults := None |}.

(** [def h(self, __path)]. *)
Definition by_path : func :=
  {| co_varnames := ["self"; "__path"]; co_argcount := 2;
     func_defaults := None |}.

(** The first microsecond of the year 2020, counted from [datetime.min]. *)
Definition year_2020 : Z := 737424 * 86400 * 1000000.

(** A world whose store holds an entity for the key of [render(5)],
    created at the start of 2020, looked at [t] microseconds later. *)
Definition world_in_2020 (t : Z) (st : gmap string cacheEntity) : world :=
  {| store := st; response_content_type := ""; now := year_2020 + t; dblog := [] |}.

Definition cached_2020 : cacheEntity :=
  {| ent_data := VStr "cached"; ent_creationtime := year_2020;
     ent_path := "/page/view"; ent_content_type := "text/html" |}.

(** A handler body that answers ["fresh"] as plain text. *)
Definition sample_body : handler :=
  fun _ _ w => (VStr "fresh", set_content_type "text/plain" w).

(** The key of [render(5)] under ["/page/view"] with [sample_digest]. *)
Definition sample_key : string :=
  "#__appVersion='7';__path='/page/view';id=5;order='asc'".

(** A world whose store holds an entity for [sample_key] created at time
    [0], looked at [t] microseconds later. *)
Definition world_at (t : Z) : world :=
  {| store := {[ sample_key :=
                  {| ent_data := VStr "cached"; ent_creationtime := 0;
                     ent_path := "/page/view"; ent_content_type := "text/html" |} ]};
     response_content_type := "";
     now := t;
     dblog := [] |}.

(** The item lists of [render(5)], of [render(6)], and of [render(5)]
    under another route; the entity that [sample_body] leaves behind. *)
Definition render5_items : list (string * value) :=
  [("__appVersion", VStr "7"); ("__path", VStr "/page/view");
   ("id", VInt 5); ("order", VStr "asc")].

Definition render6_items : list (string * value) :=
  [("__appVersion", VStr "7"); ("__path", VStr "/page/view");
   ("id", VInt 6); ("order", VStr "asc")].

Definition render5_pdf_items : list (string * value) :=
  [("__appVersion", VStr "7"); ("__path", VStr "/pdf/page/view");
   ("id", VInt 5); ("order", VStr "asc")].

Definition fresh_entity : cacheEntity :=
  {| ent_data := VStr "fresh"; ent_creationtime := 0; ent_path := "/page/view";
     ent_content_type := "text/plain" |}.

(** A cache entity stored for path [p]. *)
Definition entity_at (p : string) : cacheEntity :=
  {| ent_data := VStr "<html/>"; ent_creationtime := 0; ent_path := p;
     ent_content_type := "text/html" |}.

Definition sample_store : gmap string cacheEntity :=
  list_to_map
    [("k1", entity_at "/page"); ("k2", entity_at "/page/view");
     ("k3", entity_at "/page/view/sub"); ("k4", entity_at "/pageX");
     ("k5", entity_at "/")].

(** * Properties *)

(** ** Order on strings *)

Lemma ascii_compare_refl (c : ascii) : Ascii.compare c c = Eq.
Proof.
  destruct (Ascii.compare c c) eqn:E; [done| |];
    pose proof (Ascii.compare_antisym c c) as H; rewrite E in H; discriminate.
Qed.

Lemma append_nil_l (s : string) : "" ++ s = s.
Proof. reflexivity. Qed.

Lemma append_cons (c : ascii) (s t : string) : String c s ++ t = String c (s ++ t).
Proof. reflexivity. Qed.

Lemma string_compare_app (s a b : string) :
  String.compare (s ++ a) (s ++ b) = String.compare a b.
Proof.
  induction s as [|c s IH]; [done|].
  rewrite !append_cons. simpl. by rewrite ascii_compare_refl.
Qed.

Lemma string_ltb_app (s a b : string) :
  String.ltb (s ++ a) (s ++ b) = String.ltb a b.
Proof. unfold String.ltb. by rewrite string_compare_app. Qed.

Lemma string_app_empty_r (s : string) : s ++ "" = s.
Proof.
  induction s as [|c s IH]; [done|]. rewrite append_cons. by rewrite IH.
Qed.

Lemma string_ltb_empty_l (r : string) :
  String.ltb "" r = true <-> r <> "".
Proof. destruct r; simpl; split; try done. Qed.

(** A string strictly between [s] and [s ++ u] starts with [s]. *)
Lemma between_has_prefix (s u p : string) :
  String.ltb s p = true -> String.ltb p (s ++ u) = true ->
  exists rest, p = s ++ rest.
Proof.
  revert p. induction s as [|c s IH]; intros p H1 H2.
  - by exists p.
  - destruct p as [|d p]; [done|].
    rewrite append_cons in H2. unfold String.ltb in *. simpl in *.
    rewrite (Ascii.compare_antisym d c) in H2.
    destruct (Ascii.compare c d) eqn:E; simpl in *; try done.
    apply Ascii.compare_eq_iff in E as ->.
    destruct (IH p H1 H2) as [rest ->]. by exists rest.
Qed.

Lemma path_between_spec (stem p : string) :
  path_between stem p = true <->
  exists rest, p = stem ++ rest /\ rest <> "" /\ String.ltb rest ufffd = true.
Proof.
  unfold path_between. rewrite andb_true_iff. split.
  - intros [H1 H2]. destruct (between_has_prefix _ _ _ H1 H2) as [rest ->].
    exists rest. split; [done|].
    rewrite string_ltb_app in H2. split; [|done].
    rewrite <- (string_app_empty_r stem) in H1 at 1.
    rewrite string_ltb_app in H1. by apply string_ltb_empty_l.
  - intros (rest & -> & Hne & Hlt). split.
    + rewrite <- (string_app_empty_r stem) at 1.
      rewrite string_ltb_app. by apply string_ltb_empty_l.
    + by rewrite string_ltb_app.
Qed.

(** ** Deleting the results of a query *)

Lemma lookup_delete_all (items : list string) (st : gmap string cacheEntity) (k : string) :
  delete_all items st !! k = if bool_decide (k ∈ items) then None else st !! k.
Proof.
  unfold delete_all. revert st. induction items as [|i items IH]; intros st; simpl.
  - done.
  - rewrite IH. destruct (decide (k = i)) as [->|Hne].
    + rewrite lookup_delete_eq. rewrite (bool_decide_eq_true_2 (i ∈ i :: items)); [|by left].
      by destruct (bool_decide (i ∈ items)).
    + rewrite lookup_delete_ne by done.
      destruct (decide (k ∈ items)) as [Hin|Hnin].
      * rewrite !bool_decide_eq_true_2; [done|by right|done].
      * rewrite !bool_decide_eq_false_2; [done| |done].
        by intros [?|?]%elem_of_cons.
Qed.

Lemma elem_of_query_keys (flt : string -> bool) (st : gmap string cacheEntity) (k : string) :
  k ∈ query_keys flt st <-> exists e, st !! k = Some e /\ flt (ent_path e) = true.
Proof.
  unfold query_keys. rewrite list_elem_of_fmap. split.
  - intros [[k' e] [-> Hin]]. apply elem_of_map_to_list in Hin.
    apply map_lookup_filter_Some in Hin as [? ?]. by exists e.
  - intros (e & Hk & Hf). exists (k, e). split; [done|].
    apply elem_of_map_to_list. by apply map_lookup_filter_Some.
Qed.

(** Running a query and deleting its results removes exactly the
    entities that pass the filter. *)
Lemma lookup_delete_query (flt : string -> bool) (st : gmap string cacheEntity) (k : string) :
  delete_all (query_keys flt st) st !! k =
  match st !! k with
  | Some e => if flt (ent_path e) then None else Some e
  | None => None
  end.
Proof.
  rewrite lookup_delete_all. case_bool_decide as Hin.
  - apply elem_of_query_keys in Hin as (e & -> & ->). done.
  - destruct (st !! k) as [e|] eqn:Hk; [|done].
    destruct (flt (ent_path e)) eqn:Hf; [|done].
    exfalso. apply Hin. apply elem_of_query_keys. by exists e.
Qed.

Lemma lookup_flushCache (prefix : string) (st : gmap string cacheEntity) (k : string) :
  flushCache prefix st !! k =
  match st !! k with
  | Some e => if flushed prefix (ent_path e) then None else Some e
  | None => None
  end.
Proof.
  unfold flushCache, flushed. destruct (endswith_star prefix); simpl.
  - rewrite !lookup_delete_query. destruct (st !! k) as [e|]; [|done].
    destruct (path_eq _ _); simpl; [done|]. done.
  - rewrite lookup_delete_query. destruct (st !! k) as [e|]; [|done].
    by rewrite orb_false_r.
Qed.

Lemma rstrip_star_no_star (prefix : string) :
  endswith_star prefix = false -> rstrip_star prefix = prefix.
Proof.
  induction prefix as [|c s IH]; [done|].
  destruct s as [|d s'].
  - simpl. by intros ->.
  - intros H. change (endswith_star (String d s') = false) in H.
    specialize (IH H). change (rstrip_star (String c (String d s')))
      with (match rstrip_star (String d s') with
            | EmptyString => if Ascii.eqb c "*"%char then EmptyString else String c EmptyString
            | r => String c r
            end).
    by rewrite IH.
Qed.

Lemma flushed_wildcard (prefix p : string) :
  endswith_star prefix = true ->
  flushed prefix p = true <-> under_stem (rstrip_star prefix) p.
Proof.
  intros Hw. unfold flushed, under_stem, path_eq. rewrite Hw. simpl.
  rewrite orb_true_iff, String.eqb_eq, path_between_spec. tauto.
Qed.

(** ** Exact flush *)

(** C7: with a prefix that has no trailing wildcard, [flushCache] deletes
    exactly the entities whose path equals the prefix: an entity with that
    path is gone, an entity with any other path (a strict descendant
    included) is still stored unchanged, and nothing appears. *)
Theorem flushCache_exact (prefix : string) (st : gmap string cacheEntity) :
  endswith_star prefix = false ->
  (forall k e, st !! k = Some e -> ent_path e = prefix ->
     flushCache prefix st !! k = None) /\
  (forall k e, st !! k = Some e -> ent_path e <> prefix ->
     flushCache prefix st !! k = Some e) /\
  (forall k, st !! k = None -> flushCache prefix st !! k = None).
Proof.
  intros Hex.
  assert (Hfl : forall p, flushed prefix p = String.eqb p prefix).
  { intros p. unfold flushed, path_eq.
    by rewrite Hex, (rstrip_star_no_star _ Hex), orb_false_r. }
  repeat split.
  - intros k e Hk Hp. rewrite lookup_flushCache, Hk, Hfl.
    by rewrite (proj2 (String.eqb_eq _ _) Hp).
  - intros k e Hk Hp. rewrite lookup_flushCache, Hk, Hfl.
    by rewrite (proj2 (String.eqb_neq _ _) Hp).
  - intros k Hk. by rewrite lookup_flushCache, Hk.
Qed.

(** C7 on the sample store: ["/page/view"] goes, ["/page/view/sub"] stays. *)
Lemma flushCache_exact_witness :
  flushCache "/page/view" sample_store !! "k2" = None /\
  flushCache "/page/view" sample_store !! "k3" = Some (entity_at "/page/view/sub").
Proof.
  destruct (flushCache_exact "/page/view" sample_store eq_refl) as (Hdel & Hkeep & _).
  split.
  - apply (Hdel "k2" (entity_at "/page/view")); reflexivity.
  - apply (Hkeep "k3" (entity_at "/page/view/sub")); [reflexivity|discriminate].
Defined.

(** ** Wildcard flush *)

(** C1 (as amended): with a prefix that ends in the wildcard marker, the
    stem is the prefix without its trailing markers (["/page/"] for
    ["/page/*"]).  [flushCache] deletes every entity whose path is the stem
    or extends the stem by a non-empty rest that sorts below U+FFFD, in
    particular by any rest whose first byte is below 239; every other
    entity, in particular one whose path does not start with the stem, is
    still stored unchanged. *)
Theorem flushCache_wildcard (prefix : string) (st : gmap string cacheEntity)
    (k : string) (e : cacheEntity) :
  endswith_star prefix = true ->
  st !! k = Some e ->
  (under_stem (rstrip_star prefix) (ent_path e) -> flushCache prefix st !! k = None) /\
  (forall c rest, Ascii.compare c "239"%char = Lt ->
     ent_path e = rstrip_star prefix ++ String c rest ->
     flushCache prefix st !! k = None) /\
  (~ under_stem (rstrip_star prefix) (ent_path e) ->
     flushCache prefix st !! k = Some e) /\
  ((forall rest, ent_path e <> rstrip_star prefix ++ rest) ->
     flushCache prefix st !! k = Some e).
Proof.
  intros Hw Hk.
  assert (Hyes : under_stem (rstrip_star prefix) (ent_path e) ->
                 flushCache prefix st !! k = None).
  { intros Hu. rewrite lookup_flushCache, Hk.
    by rewrite (proj2 (flushed_wildcard prefix _ Hw) Hu). }
  assert (Hno : ~ under_stem (rstrip_star prefix) (ent_path e) ->
                flushCache prefix st !! k = Some e).
  { intros Hu. rewrite lookup_flushCache, Hk.
    destruct (flushed prefix (ent_path e)) eqn:Hf; [|done].
    by apply (flushed_wildcard prefix _ Hw) in Hf. }
  split; [done|]. split; [|split; [done|]].
  - intros c rest Hc Hp. apply Hyes. right. exists (String c rest).
    split; [done|]. split; [done|].
    unfold String.ltb, ufffd. simpl. by rewrite Hc.
  - intros Hpre. apply Hno. intros [Heq|(rest & Heq & _)].
    + apply (Hpre ""). by rewrite string_app_empty_r.
    + by apply (Hpre rest).
Qed.

(** C1 (as amended) on the sample store: ["/page/view/sub"] goes. *)
Lemma flushCache_wildcard_witness :
  flushCache "/page/*" sample_store !! "k3" = None.
Proof.
  apply (proj1 (proj2 (flushCache_wildcard "/page/*" sample_store "k3"
                         (entity_at "/page/view/sub") eq_refl eq_refl))
           "v"%char "iew/sub"); reflexivity.
Defined.

(** C1 (as stated) fails: after [flushCache "/page/*"] the entity stored
    for the path ["/page"] is still there. *)
Lemma flushCache_wildcard_keeps_page :
  sample_store !! "k1" = Some (entity_at "/page") /\
  flushCache "/page/*" sample_store !! "k1" = Some (entity_at "/page").
Proof. split; vm_compute; reflexivity. Qed.

(** ** Idempotent flush *)

Lemma query_keys_nil (flt : string -> bool) (st : gmap string cacheEntity) :
  (forall k e, st !! k = Some e -> flt (ent_path e) = false) ->
  query_keys flt st = [].
Proof.
  intros Hnone. destruct (query_keys flt st) as [|k l] eqn:Hq; [done|].
  assert (k ∈ query_keys flt st) as Hin by (rewrite Hq; by left).
  apply elem_of_query_keys in Hin as (e & Hk & Hf).
  by rewrite (Hnone k e Hk) in Hf.
Qed.

Lemma flushCache_survivor (prefix : string) (st : gmap string cacheEntity)
    (k : string) (e : cacheEntity) :
  flushCache prefix st !! k = Some e -> flushed prefix (ent_path e) = false.
Proof.
  rewrite lookup_flushCache. destruct (st !! k) as [e'|]; [|done].
  destruct (flushed prefix (ent_path e')) eqn:Hf; [done|]. by intros [= <-].
Qed.

(** C8: running [flushCache] a second time with the same prefix leaves the
    store exactly as the first run left it; the queries of the second run
    find nothing to delete. *)
Theorem flushCache_idempotent (prefix : string) (st : gmap string cacheEntity) :
  flushCache prefix (flushCache prefix st) = flushCache prefix st /\
  query_keys (path_eq (rstrip_star prefix)) (flushCache prefix st) = [] /\
  (if endswith_star prefix
   then query_keys (path_between (rstrip_star prefix)) (flushCache prefix st) = []
   else True).
Proof.
  split; [|split].
  - apply map_eq. intros k. rewrite (lookup_flushCache prefix (flushCache prefix st)).
    rewrite lookup_flushCache. destruct (st !! k) as [e|]; [|done].
    destruct (flushed prefix (ent_path e)) eqn:Hf; [done|]. by rewrite Hf.
  - apply query_keys_nil. intros k e Hk.
    apply flushCache_survivor in Hk. unfold flushed in Hk.
    by apply orb_false_iff in Hk as [? _].
  - destruct (endswith_star prefix) eqn:Hw; [|done].
    apply query_keys_nil. intros k e Hk.
    apply flushCache_survivor in Hk. unfold flushed in Hk. rewrite Hw in Hk.
    by apply orb_false_iff in Hk as [_ ?].
Qed.

(** ** [booleanBone]: serialize and unserialize *)

(** C10: [serialize] followed by [unserialize] on the entity it produced
    stores the boolean held under [name] back under [name], whatever cache
    [unserialize] fills; when [name] is absent from the cache that was
    serialized, the entity holds [False] and so does the cache afterwards. *)
Theorem booleanBone_roundtrip (name : string) (valuesCache target entity : gmap string value) :
  (forall v : bool, valuesCache !! name = Some (VBool v) ->
     booleanBone.serialize valuesCache name entity !! name = Some (VBool v) /\
     booleanBone.unserialize target name (booleanBone.serialize valuesCache name entity)
       = (<[name := VBool v]> target, true) /\
     booleanBone.unserialize valuesCache name (booleanBone.serialize valuesCache name entity)
       = (valuesCache, true)) /\
  (valuesCache !! name = None ->
     booleanBone.serialize valuesCache name entity !! name = Some (VBool false) /\
     booleanBone.unserialize target name (booleanBone.serialize valuesCache name entity)
       = (<[name := VBool false]> target, true)).
Proof.
  unfold booleanBone.unserialize, booleanBone.serialize. split.
  - intros v Hv. rewrite Hv, lookup_insert_eq. simpl.
    split; [done|]. destruct v; simpl.
    + split; [done|]. by rewrite insert_id.
    + split; [done|]. by rewrite insert_id.
  - intros Hv. rewrite Hv, lookup_insert_eq. by simpl.
Qed.

(** ** Argument binding *)

Lemma same_kind_refl (e : exn) : same_kind e e.
Proof. by destruct e. Qed.

Lemma agree_refl {A : Type} (o : outcome A) : agree o o.
Proof. destruct o; simpl; [done|apply same_kind_refl]. Qed.

Lemma agree_bind_return {A B : Type} (g : A -> B) (o1 o2 : outcome A) :
  agree o1 o2 -> agree (x ← o1; Return (g x)) (x ← o2; Return (g x)).
Proof.
  destruct o1, o2; simpl; try done. by intros ->.
Qed.

Lemma map_defaults_returns (ns : list string) (ds : list value) (res : gmap string value) :
  (length ds <= length ns)%nat -> exists r, map_defaults ns ds res = Return r.
Proof.
  revert ns res. induction ds as [|d ds IH]; intros ns res Hlen; simpl.
  - by exists res.
  - destruct ns as [|n ns]; simpl in Hlen; [lia|]. apply IH. lia.
Qed.

Lemma map_defaults_lookup_None (ns : list string) (ds : list value)
    (res r : gmap string value) (p : string) :
  map_defaults ns ds res = Return r ->
  res !! p = None -> p ∉ take (length ds) ns -> r !! p = None.
Proof.
  revert ns res. induction ds as [|d ds IH]; intros ns res Hr Hres Hp; simpl in *.
  - by injection Hr as <-.
  - destruct ns as [|n ns]; [done|]. simpl in Hp.
    apply not_elem_of_cons in Hp as [Hne Hp].
    apply (IH ns (<[n := d]> res)); [done| |done].
    by rewrite lookup_insert_ne.
Qed.

Lemma map_args_setArgs (ev names : list string) (args : list value)
    (sa : list string) (res : gmap string value) :
  (map_args ev names args sa res).1 = (sa ++ positional_names ev names args)%list.
Proof.
  unfold positional_names.
  revert args sa res. induction names as [|n ns IH]; intros args sa res.
  - destruct args; simpl; by rewrite app_nil_r.
  - destruct args as [|a args]; simpl; [by rewrite app_nil_r|].
    rewrite filter_cons. case_bool_decide as Hn.
    + rewrite decide_True by done. rewrite IH. by rewrite <- app_assoc.
    + rewrite decide_False by done. apply IH.
Qed.

Lemma map_args_lookup_None (ev names : list string) (args : list value)
    (sa : list string) (res : gmap string value) (p : string) :
  res !! p = None -> p ∉ take (length args) names ->
  (map_args ev names args sa res).2 !! p = None.
Proof.
  revert args sa res. induction names as [|n ns IH]; intros args sa res Hres Hp.
  - by destruct args.
  - destruct args as [|a args]; simpl in *; [done|].
    apply not_elem_of_cons in Hp as [Hne Hp].
    case_bool_decide.
    + apply IH; [|done]. by rewrite lookup_insert_ne.
    + by apply IH.
Qed.

(** Changing the value given at a position whose parameter is not
    allowlisted (or that lies beyond the parameters) changes nothing. *)
Lemma map_args_insert_unlisted (ev names : list string) (args : list value)
    (i : nat) (v : value) (sa : list string) (res : gmap string value) :
  (forall k, names !! i = Some k -> k ∉ ev) ->
  map_args ev names (<[i := v]> args) sa res = map_args ev names args sa res.
Proof.
  revert args i sa res. induction names as [|n ns IH]; intros args i sa res Hk.
  - by destruct args, i.
  - destruct args as [|a args]; [done|]. destruct i as [|i]; simpl.
    + rewrite !bool_decide_eq_false_2; [done|by apply Hk..].
    + case_bool_decide; apply IH; intros k Hlk; apply Hk; done.
Qed.

(** Appending a positional argument for a parameter that is not
    allowlisted changes nothing. *)
Lemma map_args_snoc_unlisted (ev names : list string) (args : list value)
    (v : value) (sa : list string) (res : gmap string value) :
  (forall k, names !! length args = Some k -> k ∉ ev) ->
  map_args ev names (args ++ [v]) sa res = map_args ev names args sa res.
Proof.
  revert args sa res. induction names as [|n ns IH]; intros args sa res Hk.
  - by destruct args.
  - destruct args as [|a args]; simpl.
    + rewrite bool_decide_eq_false_2 by (by apply Hk). by destruct ns.
    + case_bool_decide; apply IH; intros k Hlk; apply Hk; done.
Qed.

Lemma map_kwargs_raises (ev sa : list string) (items : list (string * value))
    (res : gmap string value) :
  Exists (clashes ev sa) items ->
  exists k, map_kwargs ev sa items res = Raise (AssertionError (dupMessage k))
            /\ k ∈ ev /\ k ∈ sa /\ k ∈ items.*1.
Proof.
  revert res. induction items as [|[k v] rest IH]; intros res Hex.
  - by apply Exists_nil in Hex.
  - simpl. case_bool_decide as Hev.
    + case_bool_decide as Hsa.
      * exists k. repeat split; try done. by left.
      * apply Exists_cons in Hex as [[_ Hc]|Hex]; [done|].
        destruct (IH (<[k := v]> res) Hex) as (k' & ? & ? & ? & ?).
        exists k'. repeat split; try done. by right.
    + apply Exists_cons in Hex as [[Hc _]|Hex]; [done|].
      destruct (IH res Hex) as (k' & ? & ? & ? & ?).
      exists k'. repeat split; try done. by right.
Qed.

Lemma map_kwargs_returns (ev sa : list string) (items : list (string * value))
    (res : gmap string value) :
  ~ Exists (clashes ev sa) items ->
  map_kwargs ev sa items res
  = Return (foldl bind_item res (filter (fun kv => kv.1 ∈ ev) items)).
Proof.
  revert res. induction items as [|[k v] rest IH]; intros res Hex; [done|].
  rewrite Exists_cons in Hex. simpl. rewrite filter_cons. simpl.
  case_bool_decide as Hev.
  - rewrite decide_True by done.
    rewrite bool_decide_eq_false_2 by (intros ?; apply Hex; by left).
    simpl. apply IH. tauto.
  - rewrite decide_False by done. apply IH. tauto.
Qed.

Lemma foldl_bind_item_union (l : list (string * value)) (res : gmap string value) :
  NoDup l.*1 -> foldl bind_item res l = list_to_map l ∪ res.
Proof.
  revert res. induction l as [|[k v] l IH]; intros res Hnd; simpl.
  - by rewrite (left_id_L ∅ (∪)).
  - apply NoDup_cons in Hnd as [Hk Hnd]. rewrite (IH _ Hnd). unfold bind_item. simpl.
    rewrite <- insert_union_l. rewrite <- insert_union_r; [done|].
    by apply not_elem_of_list_to_map_1.
Qed.

Lemma Exists_perm {A : Type} (P : A -> Prop) (l1 l2 : list A) :
  l1 ≡ₚ l2 -> Exists P l1 -> Exists P l2.
Proof.
  intros Hp. rewrite !Exists_exists. intros (x & Hin & HP).
  exists x. split; [|done]. by rewrite <- Hp.
Qed.

(** The keyword loop does not depend on the order in which a dictionary
    hands out its items, up to which duplicate is named in the error. *)
Lemma map_kwargs_perm (ev sa : list string) (l1 l2 : list (string * value))
    (res : gmap string value) :
  l1 ≡ₚ l2 -> NoDup l1.*1 ->
  agree (map_kwargs ev sa l1 res) (map_kwargs ev sa l2 res).
Proof.
  intros Hp Hnd. destruct (decide (Exists (clashes ev sa) l1)) as [Hex|Hex].
  - destruct (map_kwargs_raises ev sa l1 res Hex) as (k1 & -> & _).
    destruct (map_kwargs_raises ev sa l2 res (Exists_perm _ _ _ Hp Hex)) as (k2 & -> & _).
    done.
  - rewrite (map_kwargs_returns ev sa l1 res Hex).
    rewrite (map_kwargs_returns ev sa l2 res).
    2:{ intros Hex2. apply Hex. by apply (Exists_perm _ l2 l1). }
    simpl.
    assert (Hf : filter (fun kv : string * value => kv.1 ∈ ev) l1
                 ≡ₚ filter (fun kv : string * value => kv.1 ∈ ev) l2) by by rewrite Hp.
    assert (Hnd1 : NoDup (filter (fun kv : string * value => kv.1 ∈ ev) l1).*1).
    { eapply sublist_NoDup; [exact Hnd|]. apply fmap_sublist, sublist_filter. }
    rewrite !foldl_bind_item_union; [|by rewrite <- Hf|done].
    by rewrite (list_to_map_proper _ _ Hnd1 Hf).
Qed.

Lemma map_kwargs_filter (ev sa : list string) (items : list (string * value))
    (res : gmap string value) :
  map_kwargs ev sa (filter (fun kv => kv.1 ∈ ev) items) res
  = map_kwargs ev sa items res.
Proof.
  revert res. induction items as [|[k v] rest IH]; intros res; [done|].
  rewrite filter_cons. simpl. case_bool_decide as Hev.
  - rewrite decide_True by done. simpl. rewrite bool_decide_eq_true_2 by done.
    case_bool_decide; [done|apply IH].
  - rewrite decide_False by done. apply IH.
Qed.

Lemma map_kwargs_lookup_None (ev sa : list string) (items : list (string * value))
    (res r : gmap string value) (p : string) :
  map_kwargs ev sa items res = Return r ->
  res !! p = None -> p ∉ items.*1 -> r !! p = None.
Proof.
  revert res. induction items as [|[k v] rest IH]; intros res Hr Hres Hp; simpl in *.
  - by injection Hr as <-.
  - apply not_elem_of_cons in Hp as [Hne Hp].
    case_bool_decide; [case_bool_decide; [done|]|].
    + apply (IH (<[k := v]> res)); [done| |done]. by rewrite lookup_insert_ne.
    + by apply (IH res).
Qed.

Lemma elem_of_keys_map_to_list (m : gmap string value) (k : string) :
  k ∈ (map_to_list m).*1 <-> is_Some (m !! k).
Proof.
  rewrite list_elem_of_fmap. split.
  - intros [[k' v] [-> Hin]]. apply elem_of_map_to_list in Hin. by exists v.
  - intros [v Hv]. exists (k, v). split; [done|]. by apply elem_of_map_to_list.
Qed.

(** Keyword items whose name is not allowlisted do not reach the loop. *)
Lemma filter_map_to_list_delete (ev : list string) (m : gmap string value) (k : string) :
  k ∉ ev ->
  filter (fun kv : string * value => kv.1 ∈ ev) (map_to_list (delete k m))
  ≡ₚ filter (fun kv : string * value => kv.1 ∈ ev) (map_to_list m).
Proof.
  intros Hk. destruct (m !! k) as [x|] eqn:Hm.
  - rewrite <- (map_to_list_delete m k x Hm). rewrite filter_cons.
    by rewrite decide_False.
  - by rewrite delete_id.
Qed.

Lemma filter_map_to_list_insert (ev : list string) (m : gmap string value)
    (k : string) (v : value) :
  k ∉ ev ->
  filter (fun kv : string * value => kv.1 ∈ ev) (map_to_list (<[k := v]> m))
  ≡ₚ filter (fun kv : string * value => kv.1 ∈ ev) (map_to_list m).
Proof.
  intros Hk. rewrite <- (filter_map_to_list_delete ev m k Hk).
  rewrite <- (insert_delete_eq m k v).
  rewrite (map_to_list_insert (delete k m) k v) by apply lookup_delete_eq.
  rewrite filter_cons. by rewrite decide_False.
Qed.

Lemma map_kwargs_same_listed (ev sa : list string) (m1 m2 : gmap string value)
    (res : gmap string value) :
  filter (fun kv : string * value => kv.1 ∈ ev) (map_to_list m1)
  ≡ₚ filter (fun kv : string * value => kv.1 ∈ ev) (map_to_list m2) ->
  agree (map_kwargs ev sa (map_to_list m1) res) (map_kwargs ev sa (map_to_list m2) res).
Proof.
  intros Hf. rewrite <- (map_kwargs_filter ev sa (map_to_list m1)).
  rewrite <- (map_kwargs_filter ev sa (map_to_list m2)).
  apply map_kwargs_perm; [done|].
  eapply sublist_NoDup; [apply (NoDup_fst_map_to_list m1)|].
  apply fmap_sublist, sublist_filter.
Qed.

Lemma bind_arguments_same_listed (f : func) (ev : list string) (args : list value)
    (m1 m2 : gmap string value) :
  filter (fun kv : string * value => kv.1 ∈ ev) (map_to_list m1)
  ≡ₚ filter (fun kv : string * value => kv.1 ∈ ev) (map_to_list m2) ->
  agree (bind_arguments f ev args m1) (bind_arguments f ev args m2).
Proof.
  intros Hf. unfold bind_arguments.
  destruct (map_defaults _ _ _) as [r|e]; simpl; [|apply same_kind_refl].
  destruct (map_args ev (argsOrder f) args [] r) as [sa r'].
  by apply map_kwargs_same_listed.
Qed.

Lemma map_args_listed (ev names : list string) (args : list value)
    (sa : list string) (res : gmap string value) :
  map_args ev names args sa res
  = ((sa ++ (listed_pairs ev names args).*1)%list,
     foldl bind_item res (listed_pairs ev names args)).
Proof.
  unfold listed_pairs.
  revert args sa res. induction names as [|n ns IH]; intros args sa res.
  - destruct args; simpl; by rewrite app_nil_r.
  - destruct args as [|a args]; simpl; [by rewrite app_nil_r|].
    rewrite filter_cons. simpl. case_bool_decide as Hn.
    + rewrite decide_True by done. rewrite IH. simpl. by rewrite <- app_assoc.
    + rewrite decide_False by done. apply IH.
Qed.

Lemma listed_kwargs_items (ev : list string) (m1 m2 : gmap string value) :
  listed_kwargs ev m1 = listed_kwargs ev m2 ->
  filter (fun kv : string * value => kv.1 ∈ ev) (map_to_list m1)
  ≡ₚ filter (fun kv : string * value => kv.1 ∈ ev) (map_to_list m2).
Proof.
  unfold listed_kwargs. rewrite !map_filter_alt. intros Heq.
  apply (list_to_map_inj (M := gmap string)) in Heq; [done| |].
  - eapply sublist_NoDup; [apply (NoDup_fst_map_to_list m1)|].
    apply fmap_sublist, sublist_filter.
  - eapply sublist_NoDup; [apply (NoDup_fst_map_to_list m2)|].
    apply fmap_sublist, sublist_filter.
Qed.

(** Argument binding sees only the allowlisted part of the arguments. *)
Lemma bind_arguments_listed (f : func) (ev : list string) (args1 args2 : list value)
    (m1 m2 : gmap string value) :
  listed_pairs ev (argsOrder f) args1 = listed_pairs ev (argsOrder f) args2 ->
  listed_kwargs ev m1 = listed_kwargs ev m2 ->
  agree (bind_arguments f ev args1 m1) (bind_arguments f ev args2 m2).
Proof.
  intros Hpos Hkw. unfold bind_arguments.
  destruct (map_defaults _ _ _) as [r|e]; simpl; [|apply same_kind_refl].
  rewrite !map_args_listed, Hpos.
  by apply map_kwargs_same_listed, listed_kwargs_items.
Qed.

Lemma same_kind_sym (e1 e2 : exn) : same_kind e1 e2 -> same_kind e2 e1.
Proof. by destruct e1, e2. Qed.

Lemma agree_sym {A : Type} (o1 o2 : outcome A) : agree o1 o2 -> agree o2 o1.
Proof. destruct o1, o2; simpl; try done. apply same_kind_sym. Qed.

Lemma bind_arguments_returns (f : func) (ev : list string) (args : list value)
    (kwargs : gmap string value) :
  defaults_fit f -> has_duplicate f ev args kwargs = false ->
  exists res, bind_arguments f ev args kwargs = Return res.
Proof.
  intros Hfit Hdup. unfold bind_arguments.
  destruct (map_defaults_returns (reverse (argsOrder f)) (reverse (defaultsOf f)) ∅)
    as [r ->].
  { rewrite !length_reverse. exact Hfit. }
  simpl. pose proof (map_args_setArgs ev (argsOrder f) args [] r) as Hsa.
  destruct (map_args ev (argsOrder f) args [] r) as [sa r']. simpl in Hsa. subst sa.
  rewrite map_kwargs_returns; [by eexists|].
  rewrite Exists_exists. intros ([k v] & Hin & Hev & Hpos). simpl in *.
  apply elem_of_map_to_list in Hin.
  unfold positional_names in Hpos. apply list_elem_of_filter in Hpos as [_ Hpos].
  unfold has_duplicate in Hdup.
  assert (Hex : existsb
            (fun k => bool_decide (k ∈ ev) && bool_decide (is_Some (kwargs !! k)))
            (take (length args) (argsOrder f)) = true); [|congruence].
  apply existsb_exists. exists k. split; [by apply list_elem_of_In|].
  rewrite !bool_decide_eq_true_2; by eauto.
Qed.

Lemma bind_arguments_raises (f : func) (ev : list string) (args : list value)
    (kwargs : gmap string value) (k : string) :
  defaults_fit f ->
  k ∈ ev -> k ∈ take (length args) (argsOrder f) -> is_Some (kwargs !! k) ->
  exists k', bind_arguments f ev args kwargs = Raise (AssertionError (dupMessage k'))
             /\ k' ∈ ev /\ k' ∈ take (length args) (argsOrder f)
             /\ is_Some (kwargs !! k').
Proof.
  intros Hfit Hev Hpos [v Hkw]. unfold bind_arguments.
  destruct (map_defaults_returns (reverse (argsOrder f)) (reverse (defaultsOf f)) ∅)
    as [r ->].
  { rewrite !length_reverse. exact Hfit. }
  simpl. pose proof (map_args_setArgs ev (argsOrder f) args [] r) as Hsa.
  destruct (map_args ev (argsOrder f) args [] r) as [sa r']. simpl in Hsa. subst sa.
  destruct (map_kwargs_raises ev (positional_names ev (argsOrder f) args)
              (map_to_list kwargs) r') as (k' & -> & Hev' & Hsa' & Hin').
  { apply Exists_exists. exists (k, v). split; [by apply elem_of_map_to_list|].
    split; [done|]. simpl. unfold positional_names. by apply list_elem_of_filter. }
  exists k'. split; [done|]. split; [done|].
  unfold positional_names in Hsa'. apply list_elem_of_filter in Hsa' as [_ Hsa'].
  split; [done|]. by apply elem_of_keys_map_to_list.
Qed.

(** ** Properties of [keyFromArgs] *)

Section KeyFromArgs.

Variable digest : list (string * value) -> string.

Lemma keyFromArgs_agree (f : func) (us : Z) (ls : bool) (ev : list string)
    (path : string) (ctx : context) (args1 args2 : list value)
    (kwargs1 kwargs2 : gmap string value) :
  agree (bind_arguments f ev args1 kwargs1) (bind_arguments f ev args2 kwargs2) ->
  agree (keyFromArgs digest f us ls ev path args1 kwargs1 ctx)
        (keyFromArgs digest f us ls ev path args2 kwargs2 ctx).
Proof.
  intros H. unfold keyFromArgs, keyItems.
  by apply agree_bind_return, agree_bind_return.
Qed.

(** C2: parameters outside the allowlist are ignored.  Two invocations
    with the same allowlisted positional bindings and the same allowlisted
    keyword arguments have the same outcome: the same key, or [None] in
    both cases, or an exception of the same kind in both cases.  In
    particular, for a parameter [k] that is not in the allowlist: giving
    it by keyword (or changing the value given by keyword), dropping it
    from the keywords, changing the value given at its position, or
    appending it as the last positional argument leaves the outcome as it
    was; so does giving it by position instead of by keyword. *)
Theorem keyFromArgs_ignores_unlisted (f : func) (us : Z) (ls : bool) (ev : list string)
    (path : string) (args : list value) (kwargs : gmap string value)
    (ctx : context) (k : string) :
  k ∉ ev ->
  (forall args' kwargs',
     listed_pairs ev (argsOrder f) args' = listed_pairs ev (argsOrder f) args ->
     listed_kwargs ev kwargs' = listed_kwargs ev kwargs ->
     agree (keyFromArgs digest f us ls ev path args' kwargs' ctx)
           (keyFromArgs digest f us ls ev path args kwargs ctx)) /\
  (forall v, agree (keyFromArgs digest f us ls ev path args (<[k := v]> kwargs) ctx)
                   (keyFromArgs digest f us ls ev path args kwargs ctx)) /\
  agree (keyFromArgs digest f us ls ev path args (delete k kwargs) ctx)
        (keyFromArgs digest f us ls ev path args kwargs ctx) /\
  (forall i v, argsOrder f !! i = Some k ->
     keyFromArgs digest f us ls ev path (<[i := v]> args) kwargs ctx
     = keyFromArgs digest f us ls ev path args kwargs ctx) /\
  (forall v, argsOrder f !! length args = Some k ->
     keyFromArgs digest f us ls ev path (args ++ [v]) kwargs ctx
     = keyFromArgs digest f us ls ev path args kwargs ctx) /\
  (forall v v', argsOrder f !! length args = Some k ->
     agree (keyFromArgs digest f us ls ev path (args ++ [v]) kwargs ctx)
           (keyFromArgs digest f us ls ev path args (<[k := v']> kwargs) ctx)).
Proof.
  intros Hk.
  assert (Hins : forall v,
            agree (keyFromArgs digest f us ls ev path args (<[k := v]> kwargs) ctx)
                  (keyFromArgs digest f us ls ev path args kwargs ctx)).
  { intros v. apply keyFromArgs_agree, bind_arguments_same_listed.
    by apply filter_map_to_list_insert. }
  assert (Hsnoc : forall v, argsOrder f !! length args = Some k ->
            keyFromArgs digest f us ls ev path (args ++ [v]) kwargs ctx
            = keyFromArgs digest f us ls ev path args kwargs ctx).
  { intros v Hpos. unfold keyFromArgs, keyItems, bind_arguments.
    destruct (map_defaults _ _ _) as [r|e]; [|done]. simpl.
    rewrite map_args_snoc_unlisted; [done|]. intros k' Hk'. congruence. }
  split; [|split; [done|split; [|split; [|split; [done|]]]]].
  - intros args' kwargs' Hpos Hkw.
    by apply keyFromArgs_agree, bind_arguments_listed.
  - apply keyFromArgs_agree, bind_arguments_same_listed.
    by apply filter_map_to_list_delete.
  - intros i v Hpos. unfold keyFromArgs, keyItems, bind_arguments.
    destruct (map_defaults _ _ _) as [r|e]; [|done]. simpl.
    rewrite map_args_insert_unlisted; [done|]. intros k' Hk'. congruence.
  - intros v v' Hpos. rewrite (Hsnoc v Hpos). apply agree_sym, Hins.
Qed.

(** C5 (as amended): for a handler whose defaults do not outnumber the
    parameters after the receiver (the receiver has no default), when an
    allowlisted parameter is given at its position and again by keyword,
    [keyFromArgs] raises the duplicate-argument error, naming a parameter
    that is given both ways; no key and no [None] comes back. *)
Theorem keyFromArgs_duplicate_raises (f : func) (us : Z) (ls : bool) (ev : list string)
    (path : string) (args : list value) (kwargs : gmap string value)
    (ctx : context) (k : string) (i : nat) :
  defaults_fit f ->
  k ∈ ev -> argsOrder f !! i = Some k -> (i < length args)%nat ->
  is_Some (kwargs !! k) ->
  exists k', keyFromArgs digest f us ls ev path args kwargs ctx
             = Raise (AssertionError (dupMessage k'))
             /\ k' ∈ ev /\ k' ∈ take (length args) (argsOrder f)
             /\ is_Some (kwargs !! k').
Proof.
  intros Hfit Hev Hpos Hi Hkw.
  destruct (bind_arguments_raises f ev args kwargs k Hfit Hev) as (k' & Hr & ?);
    [apply elem_of_take; by exists i|done|].
  exists k'. split; [|done]. unfold keyFromArgs, keyItems. by rewrite Hr.
Qed.

End KeyFromArgs.

(** ** Folding the context in *)

Lemma all_satisfied_false (names : list string) (res : gmap string value) (p : string) :
  p ∈ names -> res !! p = None -> all_satisfied names res = false.
Proof.
  intros Hin Hres. unfold all_satisfied.
  destruct (forallb _ names) eqn:Hall; [|done].
  rewrite forallb_forall in Hall. specialize (Hall p).
  rewrite <- list_elem_of_In in Hall. specialize (Hall Hin).
  apply bool_decide_eq_true_1 in Hall. rewrite Hres in Hall. by destruct Hall.
Qed.

Lemma all_satisfied_insert_value (names : list string) (res : gmap string value)
    (k : string) (x1 x2 : value) :
  all_satisfied names (<[k := x1]> res) = all_satisfied names (<[k := x2]> res).
Proof.
  unfold all_satisfied. induction names as [|n names IH]; [done|]. simpl.
  rewrite IH. f_equal. destruct (decide (k = n)) as [->|Hne].
  - rewrite !lookup_insert_eq. by rewrite !bool_decide_eq_true_2.
  - by rewrite !lookup_insert_ne.
Qed.

Lemma context_items_final (f : func) (us : Z) (ls : bool) (path : string)
    (ctx : context) (res : gmap string value) :
  context_items f us ls path ctx res =
  match map_user us (currentUser ctx) res with
  | None => None
  | Some r =>
      match final_dict ls path ctx r with
      | None => None
      | Some r' => if negb (all_satisfied (argsOrder f) r') then None
                   else Some (sorted_items r')
      end
  end.
Proof.
  unfold context_items, final_dict, finish_items.
  destruct (map_user _ _ _) as [r|]; [|done].
  by destruct (map_env _ _).
Qed.

Lemma final_dict_insert_user (ls : bool) (path : string) (ctx : context)
    (res : gmap string value) (x : value) :
  final_dict ls path ctx (<["__user" := x]> res)
  = option_map (insert "__user" x) (final_dict ls path ctx res).
Proof.
  unfold final_dict, map_env, map_lang.
  destruct ls, (conf_cacheEnvironmentKey ctx) as [[v|]|]; simpl; try done;
    f_equal; repeat (rewrite (insert_insert_ne _ _ "__user") by done); done.
Qed.

Lemma final_dict_lookup_None (ls : bool) (path : string) (ctx : context)
    (res r : gmap string value) (p : string) :
  final_dict ls path ctx res = Some r ->
  startswith_underscore p = false -> res !! p = None -> r !! p = None.
Proof.
  unfold final_dict, map_env, map_lang. intros Hr Hp Hres.
  assert (forall q, startswith_underscore q = true -> q <> p) as Hq
    by (intros q Hq ->; congruence).
  destruct ls, (conf_cacheEnvironmentKey ctx) as [[v|]|]; simplify_eq;
    repeat (rewrite lookup_insert_ne by (by apply Hq)); done.
Qed.

Lemma sorted_items_inj (r1 r2 : gmap string value) :
  sorted_items r1 = sorted_items r2 -> r1 = r2.
Proof.
  unfold sorted_items. intros H. apply map_to_list_inj.
  rewrite <- (merge_sort_Permutation key_le (map_to_list r1)).
  rewrite <- (merge_sort_Permutation key_le (map_to_list r2)).
  by rewrite H.
Qed.

(** A parameter that the argument dictionary lacks, and whose name does
    not begin with an underscore, makes the call uncacheable. *)
Lemma context_items_missing (f : func) (us : Z) (ls : bool) (path : string)
    (ctx : context) (res : gmap string value) (p : string) :
  p ∈ argsOrder f -> startswith_underscore p = false -> res !! p = None ->
  context_items f us ls path ctx res = None.
Proof.
  intros Hin Hp Hres. rewrite context_items_final.
  destruct (map_user us (currentUser ctx) res) as [r|] eqn:Hu; [|done].
  assert (r !! p = None) as Hr.
  { unfold map_user in Hu.
    repeat match type of Hu with
           | (if ?b then _ else _) = _ => destruct b
           end; simplify_eq; try done;
      rewrite lookup_insert_ne; try done; intros <-; discriminate. }
  destruct (final_dict ls path ctx r) as [r'|] eqn:Hf; [|done].
  by rewrite (all_satisfied_false _ _ p Hin (final_dict_lookup_None _ _ _ _ _ _ Hf Hp Hr)).
Qed.

(** Two values in the ["__user"] slot give two item lists, both present
    or both absent, and different when the values are. *)
Lemma user_slot_items (f : func) (ls : bool) (path : string) (ctx : context)
    (res : gmap string value) (x1 x2 : value) (l1 : list (string * value)) :
  match final_dict ls path ctx (<["__user" := x1]> res) with
  | None => None
  | Some r' => if negb (all_satisfied (argsOrder f) r') then None
               else Some (sorted_items r')
  end = Some l1 ->
  exists l2,
    match final_dict ls path ctx (<["__user" := x2]> res) with
    | None => None
    | Some r' => if negb (all_satisfied (argsOrder f) r') then None
                 else Some (sorted_items r')
    end = Some l2 /\ (x1 <> x2 -> l1 <> l2).
Proof.
  rewrite !final_dict_insert_user.
  destruct (final_dict ls path ctx res) as [r|]; simpl; [|done].
  rewrite (all_satisfied_insert_value _ r "__user" x2 x1).
  destruct (all_satisfied _ _); simpl; [|done].
  intros [= <-]. eexists. split; [done|].
  intros Hx Heq. apply sorted_items_inj in Heq.
  apply (f_equal (fun m => m !! "__user")) in Heq.
  rewrite !lookup_insert_eq in Heq. congruence.
Qed.

Lemma bind_arguments_lookup_None (f : func) (ev : list string) (args : list value)
    (kwargs res : gmap string value) (p : string) :
  bind_arguments f ev args kwargs = Return res ->
  p ∉ take (length (defaultsOf f)) (reverse (argsOrder f)) ->
  p ∉ take (length args) (argsOrder f) ->
  kwargs !! p = None ->
  res !! p = None.
Proof.
  unfold bind_arguments. intros Hb Hdef Hpos Hkw.
  destruct (map_defaults _ _ _) as [r|e] eqn:Hd; [|done]. simpl in Hb.
  pose proof (map_args_lookup_None ev (argsOrder f) args [] r p) as Ha.
  destruct (map_args ev (argsOrder f) args [] r) as [sa r']. simpl in Ha.
  eapply map_kwargs_lookup_None; [exact Hb| |].
  - apply Ha; [|done].
    eapply map_defaults_lookup_None; [exact Hd|apply lookup_empty|].
    by rewrite length_reverse.
  - rewrite elem_of_keys_map_to_list, Hkw. by intros [? ?].
Qed.

Lemma enableCache_assert_no_underscore (ev : list string) (p : string) :
  enableCache_assert ev = true -> p ∈ ev -> startswith_underscore p = false.
Proof.
  unfold enableCache_assert. intros Ha Hin.
  destruct (startswith_underscore p) eqn:Hp; [|done].
  assert (existsb startswith_underscore ev = true) as Hex; [|by rewrite Hex in Ha].
  apply existsb_exists. exists p. split; [by apply list_elem_of_In|done].
Qed.

Ltac by_computation := refine (bool_decide_unpack _ _); vm_compute; exact I.

(** A parameter without default shows that the defaults do not outnumber
    the parameters. *)
Lemma uncovered_defaults_fit (f : func) (p : string) :
  p ∈ argsOrder f ->
  p ∉ take (length (defaultsOf f)) (reverse (argsOrder f)) ->
  defaults_fit f.
Proof.
  intros Hin Hdef. unfold defaults_fit.
  destruct (decide (length (defaultsOf f) <= length (argsOrder f))%nat) as [|Hgt];
    [done|].
  exfalso. apply Hdef. rewrite take_ge by (rewrite length_reverse; lia).
  by apply elem_of_reverse.
Qed.

Lemma has_duplicate_true (f : func) (ev : list string) (args : list value)
    (kwargs : gmap string value) :
  has_duplicate f ev args kwargs = true ->
  exists k, k ∈ ev /\ k ∈ take (length args) (argsOrder f) /\ is_Some (kwargs !! k).
Proof.
  unfold has_duplicate. intros Hex. apply existsb_exists in Hex as (k & Hin & Hk).
  apply andb_true_iff in Hk as [Hev Hkw].
  apply bool_decide_eq_true_1 in Hev, Hkw.
  exists k. split; [done|]. split; [by apply list_elem_of_In|done].
Qed.

Section KeyFromArgsContext.

Variable digest : list (string * value) -> string.

Lemma keyFromArgs_Return (f : func) (us : Z) (ls : bool) (ev : list string)
    (path : string) (args : list value) (kwargs : gmap string value) (ctx : context)
    (res : gmap string value) :
  bind_arguments f ev args kwargs = Return res ->
  keyItems f us ls ev path args kwargs ctx
  = Return (context_items f us ls path ctx res) /\
  keyFromArgs digest f us ls ev path args kwargs ctx
  = Return (option_map digest (context_items f us ls path ctx res)).
Proof. intros Hb. unfold keyFromArgs, keyItems. by rewrite Hb. Qed.

Lemma keyFromArgs_never_key (f : func) (us : Z) (ls : bool) (ev : list string)
    (path : string) (args : list value) (kwargs : gmap string value) (ctx : context) :
  (forall res, bind_arguments f ev args kwargs = Return res ->
               context_items f us ls path ctx res = None) ->
  (forall key, keyFromArgs digest f us ls ev path args kwargs ctx <> Return (Some key)) /\
  (defaults_fit f -> has_duplicate f ev args kwargs = false ->
   keyFromArgs digest f us ls ev path args kwargs ctx = Return None).
Proof.
  intros Hnone. split.
  - intros key. destruct (bind_arguments f ev args kwargs) as [res|e] eqn:Hb.
    + rewrite (proj2 (keyFromArgs_Return f us ls ev path args kwargs ctx res Hb)).
      by rewrite (Hnone res).
    + unfold keyFromArgs, keyItems. by rewrite Hb.
  - intros Hfit Hdup.
    destruct (bind_arguments_returns f ev args kwargs Hfit Hdup) as [res Hb].
    rewrite (proj2 (keyFromArgs_Return f us ls ev path args kwargs ctx res Hb)).
    by rewrite (Hnone res Hb).
Qed.

(** C6 (as amended): let the allowlist be one that [enableCache] accepts
    (no name begins with an underscore), and let a declared parameter of
    the handler that is in the allowlist have no default, no positional
    argument at its position and no keyword argument.  Then [keyFromArgs]
    never returns a key: it returns [None] when no allowlisted parameter
    is given both by position and by keyword, and when one is, it raises
    the duplicate-argument error naming such a parameter. *)
Theorem keyFromArgs_incomplete (f : func) (us : Z) (ls : bool) (ev : list string)
    (path : string) (args : list value) (kwargs : gmap string value)
    (ctx : context) (p : string) :
  enableCache_assert ev = true ->
  p ∈ ev -> p ∈ argsOrder f ->
  p ∉ take (length (defaultsOf f)) (reverse (argsOrder f)) ->
  p ∉ take (length args) (argsOrder f) ->
  kwargs !! p = None ->
  (forall key, keyFromArgs digest f us ls ev path args kwargs ctx <> Return (Some key)) /\
  (has_duplicate f ev args kwargs = false ->
   keyFromArgs digest f us ls ev path args kwargs ctx = Return None) /\
  (has_duplicate f ev args kwargs = true ->
   exists k, keyFromArgs digest f us ls ev path args kwargs ctx
             = Raise (AssertionError (dupMessage k))
             /\ k ∈ ev /\ k ∈ take (length args) (argsOrder f)
             /\ is_Some (kwargs !! k)).
Proof.
  intros Hassert Hev Hin Hdef Hpos Hkw.
  pose proof (uncovered_defaults_fit f p Hin Hdef) as Hfit.
  assert (Hnone : forall res, bind_arguments f ev args kwargs = Return res ->
                    context_items f us ls path ctx res = None).
  { intros res Hb. apply (context_items_missing f us ls path ctx res p Hin).
    - by apply (enableCache_assert_no_underscore ev).
    - by apply (bind_arguments_lookup_None f ev args kwargs). }
  destruct (keyFromArgs_never_key f us ls ev path args kwargs ctx Hnone) as [Hkey Hret].
  split; [done|]. split; [by apply Hret|].
  intros Hdup. apply has_duplicate_true in Hdup as (k & Hk1 & Hk2 & Hk3).
  destruct (bind_arguments_raises f ev args kwargs k Hfit Hk1 Hk2 Hk3)
    as (k' & Hr & Hrest).
  exists k'. split; [|done]. unfold keyFromArgs, keyItems. by rewrite Hr.
Qed.

(** C3 (as amended): for invocations that differ only in the current
    caller.  Mode 0: the outcomes are identical.  Mode 1: with an
    authenticated caller no key is ever returned, and [None] is returned
    whenever argument binding raises nothing.  Mode 2: any two
    authenticated callers get identical outcomes, and when a key is
    produced for an authenticated caller, one is produced for no caller
    too, the two being the digests of different item lists.  Mode 3: when
    a key is produced for a caller, one is produced for every other
    caller, and for a caller with a different identifier the two keys are
    the digests of different item lists. *)
Theorem keyFromArgs_user_sensitivity (f : func) (ls : bool) (ev : list string)
    (path : string) (args : list value) (kwargs : gmap string value) (ctx : context) :
  (forall u1 u2,
     keyFromArgs digest f 0 ls ev path args kwargs (with_user u1 ctx)
     = keyFromArgs digest f 0 ls ev path args kwargs (with_user u2 ctx)) /\
  (forall u,
     (forall key, keyFromArgs digest f 1 ls ev path args kwargs (with_user (Some u) ctx)
                  <> Return (Some key)) /\
     (defaults_fit f -> has_duplicate f ev args kwargs = false ->
      keyFromArgs digest f 1 ls ev path args kwargs (with_user (Some u) ctx)
      = Return None)) /\
  (forall u1 u2,
     keyFromArgs digest f 2 ls ev path args kwargs (with_user (Some u1) ctx)
     = keyFromArgs digest f 2 ls ev path args kwargs (with_user (Some u2) ctx)) /\
  (forall u l1,
     keyItems f 2 ls ev path args kwargs (with_user (Some u) ctx) = Return (Some l1) ->
     exists l2,
       keyItems f 2 ls ev path args kwargs (with_user None ctx) = Return (Some l2)
       /\ l1 <> l2
       /\ keyFromArgs digest f 2 ls ev path args kwargs (with_user (Some u) ctx)
          = Return (Some (digest l1))
       /\ keyFromArgs digest f 2 ls ev path args kwargs (with_user None ctx)
          = Return (Some (digest l2))) /\
  (forall u1 u2 l1,
     keyItems f 3 ls ev path args kwargs (with_user (Some u1) ctx) = Return (Some l1) ->
     exists l2,
       keyItems f 3 ls ev path args kwargs (with_user (Some u2) ctx) = Return (Some l2)
       /\ (user_key u1 <> user_key u2 -> l1 <> l2)
       /\ keyFromArgs digest f 3 ls ev path args kwargs (with_user (Some u1) ctx)
          = Return (Some (digest l1))
       /\ keyFromArgs digest f 3 ls ev path args kwargs (with_user (Some u2) ctx)
          = Return (Some (digest l2))).
Proof.
  split; [done|]. split; [|split; [done|split]].
  - intros u. by apply keyFromArgs_never_key.
  - intros u l1 H1. unfold keyFromArgs. rewrite H1. unfold keyItems in *.
    destruct (bind_arguments f ev args kwargs) as [res|e]; [|done].
    simpl in *. injection H1 as H1. rewrite context_items_final in *.
    destruct (user_slot_items f ls path (with_user (Some u) ctx) res
                (VStr "__ISUSER") VNone l1 H1) as (l2 & H2 & Hne).
    exists l2. change (final_dict ls path (with_user (Some u) ctx))
      with (final_dict ls path (with_user None ctx)) in H2.
    simpl. rewrite H2. repeat split; try done. by apply Hne.
  - intros u1 u2 l1 H1. unfold keyFromArgs. rewrite H1. unfold keyItems in *.
    destruct (bind_arguments f ev args kwargs) as [res|e]; [|done].
    simpl in *. injection H1 as H1. rewrite context_items_final in *.
    destruct (user_slot_items f ls path (with_user (Some u1) ctx) res
                (user_key u1) (user_key u2) l1 H1) as (l2 & H2 & Hne).
    exists l2. change (final_dict ls path (with_user (Some u1) ctx))
      with (final_dict ls path (with_user (Some u2) ctx)) in H2.
    simpl. rewrite H2. done.
Qed.

End KeyFromArgsContext.

(** C6 (as amended) at [view(1)]: ["style"] is missing. *)
Lemma keyFromArgs_incomplete_witness :
  keyFromArgs sample_digest view 0 false ["key"; "style"] "/page/view"
    [VInt 1] ∅ ctx0 = Return None.
Proof.
  assert ("style" ∈ ["key"; "style"]) as Hev by by_computation.
  assert ("style" ∈ argsOrder view) as Hin by by_computation.
  assert ("style" ∉ take (length (defaultsOf view)) (reverse (argsOrder view)))
    as Hdef by by_computation.
  assert ("style" ∉ take (length [VInt 1]) (argsOrder view)) as Hpos
    by by_computation.
  assert ((∅ : gmap string value) !! "style" = None) as Hkw by reflexivity.
  assert (has_duplicate view ["key"; "style"] [VInt 1] ∅ = false) as Hdup
    by reflexivity.
  destruct (keyFromArgs_incomplete sample_digest view 0 false ["key"; "style"]
              "/page/view" [VInt 1] ∅ ctx0 "style" eq_refl Hev Hin Hdef Hpos Hkw)
    as (_ & Hnone & _).
  exact (Hnone Hdup).
Defined.

(** C6 (as stated) fails in three ways.  At [view(1, key=2)], ["style"] is
    allowlisted and has no default, no positional and no keyword
    argument, but ["key"] is given twice and the call raises instead of
    returning [None].  At [render(5)] for [def render(self, id, **kw)]
    with the allowlist [["id"; "order"]], ["order"] is allowlisted and
    uncovered, but it is no declared parameter and a key is returned.
    At [h()] for [def h(self, __path)] with the allowlist [["__path"]],
    which [enableCache] refuses, the uncovered parameter is filled in
    from the request and a key is returned. *)
Lemma keyFromArgs_incomplete_but_raises :
  ("style" ∈ ["key"; "style"] /\ "style" ∈ argsOrder view /\
   ("style" ∉ take (length (defaultsOf view)) (reverse (argsOrder view))) /\
   ("style" ∉ take (length [VInt 1]) (argsOrder view)) /\
   ({["key" := VInt 2]} : gmap string value) !! "style" = None /\
   keyFromArgs sample_digest view 0 false ["key"; "style"] "/page/view"
     [VInt 1] {["key" := VInt 2]} ctx0
   = Raise (AssertionError "Got dupplicate arguments for key")) /\
  ("order" ∈ ["id"; "order"] /\ ("order" ∉ argsOrder render_kw) /\
   ("order" ∉ take (length (defaultsOf render_kw)) (reverse (argsOrder render_kw))) /\
   ("order" ∉ take (length [VInt 5]) (argsOrder render_kw)) /\
   (∅ : gmap string value) !! "order" = None /\
   keyFromArgs sample_digest render_kw 0 false ["id"; "order"] "/page/view"
     [VInt 5] ∅ ctx0
   = Return (Some "#__appVersion='7';__path='/page/view';id=5")) /\
  ("__path" ∈ ["__path"] /\ "__path" ∈ argsOrder by_path /\
   enableCache_assert ["__path"] = false /\
   ("__path" ∉ take (length (defaultsOf by_path)) (reverse (argsOrder by_path))) /\
   ("__path" ∉ take (length ([] : list value)) (argsOrder by_path)) /\
   (∅ : gmap string value) !! "__path" = None /\
   keyFromArgs sample_digest by_path 0 false ["__path"] "/page/view" [] ∅ ctx0
   = Return (Some "#__appVersion='7';__path='/page/view'")).
Proof.
  repeat split; try by_computation; vm_compute; reflexivity.
Qed.

(** C5 (as stated) fails for [def f(self=0, id=1)]: at [f(5, id=6)] with
    ["id"] allowlisted, ["id"] is given at its position and again by
    keyword, but the defaults outnumber the parameters after the receiver
    and line 50 raises [IndexError] before the duplicate is looked for. *)
Lemma keyFromArgs_duplicate_index_error :
  "id" ∈ ["id"] /\ argsOrder receiver_default !! 0%nat = Some "id" /\
  (0 < length [VInt 5])%nat /\
  is_Some (({["id" := VInt 6]} : gmap string value) !! "id") /\
  keyFromArgs sample_digest receiver_default 0 false ["id"] "/page/view"
    [VInt 5] {["id" := VInt 6]} ctx0
  = Raise IndexError.
Proof.
  repeat split; try by_computation; try (simpl; lia); vm_compute; reflexivity.
Qed.

(** C3 (as stated) fails in mode 1: with an authenticated caller and a
    parameter given twice the call raises instead of returning [None]. *)
Lemma keyFromArgs_guests_only_raises :
  keyFromArgs sample_digest render 1 false ["id"; "order"] "/page/view"
    [VInt 5; VStr "desc"] {["order" := VStr "asc"]} (with_user (Some alice) ctx0)
  = Raise (AssertionError "Got dupplicate arguments for order").
Proof. vm_compute. reflexivity. Qed.

(** C3 (as amended), mode 3, for two callers of [render(5)]. *)
Lemma keyFromArgs_user_sensitivity_witness :
  exists l1 l2,
    l1 <> l2 /\
    keyFromArgs sample_digest render 3 false ["id"; "order"] "/page/view"
      [VInt 5] ∅ (with_user (Some alice) ctx0) = Return (Some (sample_digest l1)) /\
    keyFromArgs sample_digest render 3 false ["id"; "order"] "/page/view"
      [VInt 5] ∅ (with_user (Some bob) ctx0) = Return (Some (sample_digest l2)).
Proof.
  pose proof (keyFromArgs_user_sensitivity sample_digest render false ["id"; "order"]
                "/page/view" [VInt 5] ∅ ctx0) as (_ & _ & _ & _ & H3).
  destruct (H3 alice bob
              [("__appVersion", VStr "7"); ("__path", VStr "/page/view");
               ("__user", VStr "alice"); ("id", VInt 5); ("order", VStr "asc")]
              eq_refl) as (l2 & _ & Hne & Ha & Hb).
  eexists _, l2. split; [|split; [exact Ha|exact Hb]].
  apply Hne. discriminate.
Defined.

(** ** The wrapped handler *)

Section WrapF.

Variable digest : list (string * value) -> string.

(** A [sha512] hex digest is 128 characters long, so never empty. *)
Hypothesis digest_nonempty : forall items, digest items <> "".

Lemma keyFromArgs_key_nonempty (f : func) (us : Z) (ls : bool) (ev : list string)
    (path : string) (args : list value) (kwargs : gmap string value) (ctx : context)
    (key : string) :
  keyFromArgs digest f us ls ev path args kwargs ctx = Return (Some key) ->
  key <> "".
Proof.
  unfold keyFromArgs.
  destruct (keyItems f us ls ev path args kwargs ctx) as [[items|]|e]; simpl; try done.
  intros [= <-]. apply digest_nonempty.
Qed.

(** C9: when caching is disabled by configuration, or the request carries
    the bypass signal, or the path of the request is not among the
    cacheable routes, the wrapped handler is the handler: it returns what
    the handler returns and leaves the surroundings as the handler leaves
    them, so the wrapper itself neither reads the store nor writes to it. *)
Theorem wrapF_bypass (f : func) (body : handler) (urls : list string) (us : Z)
    (ls : bool) (ev : list string) (maxCacheTime : option Z) (ctx : context)
    (args : list value) (kwargs : gmap string value) (w : world) :
  conf_disableCache ctx = true \/ req_disableCache ctx = true
  \/ request_path ctx ∉ urls ->
  wrapF digest f body urls us ls ev maxCacheTime ctx args kwargs w
  = Return (body args kwargs w).
Proof.
  unfold wrapF. intros [Hc|[Hr|Hp]].
  - by rewrite Hc.
  - rewrite Hr. by rewrite orb_true_r.
  - destruct (conf_disableCache ctx || req_disableCache ctx); [done|].
    by rewrite bool_decide_eq_false_2.
Qed.

Lemma fresh_enough_in_range (t : Z) (e : cacheEntity) (w : world) :
  t <> 0 -> cutoff_in_range t w ->
  fresh_enough (Some t) e w = Return (ent_creationtime e >? now w - t * 1000000).
Proof.
  intros Ht [[Hd1 Hd2] [Hc1 Hc2]]. unfold fresh_enough, timedelta_seconds, datetime_sub.
  rewrite (proj2 (Z.eqb_neq t 0) Ht).
  rewrite (proj2 (Z.leb_le _ _) Hd1), (proj2 (Z.leb_le _ _) Hd2). simpl.
  by rewrite (proj2 (Z.leb_le _ _) Hc1), (proj2 (Z.leb_le _ _) Hc2).
Qed.

Lemma fresh_enough_out_of_range (t : Z) (e : cacheEntity) (w : world) :
  t <> 0 -> ~ cutoff_in_range t w ->
  fresh_enough (Some t) e w = Raise OverflowError.
Proof.
  intros Ht Hout. unfold fresh_enough, timedelta_seconds, datetime_sub.
  rewrite (proj2 (Z.eqb_neq t 0) Ht).
  destruct (-999999999 <=? t / 86400) eqn:Hd1; [|done].
  destruct (t / 86400 <=? 999999999) eqn:Hd2; [|done]. simpl.
  destruct (0 <=? now w - t * 1000000) eqn:Hc1; [|done].
  destruct (now w - t * 1000000 <=? datetime_max) eqn:Hc2; [|done].
  exfalso. apply Hout. unfold cutoff_in_range.
  apply Z.leb_le in Hd1, Hd2, Hc1, Hc2. lia.
Qed.

(** A request with caching active whose key is in the store: line 135
    decides between the stored data and a rebuild. *)
Lemma wrapF_hit (f : func) (body : handler) (urls : list string) (us : Z)
    (ls : bool) (ev : list string) (maxCacheTime : option Z) (ctx : context)
    (args : list value) (kwargs : gmap string value) (w : world)
    (key : string) (e : cacheEntity) :
  conf_disableCache ctx = false -> req_disableCache ctx = false ->
  request_path ctx ∈ urls ->
  keyFromArgs digest f us ls ev (request_path ctx) args kwargs ctx = Return (Some key) ->
  store w !! key = Some e ->
  wrapF digest f body urls us ls ev maxCacheTime ctx args kwargs w
  = (fresh ← fresh_enough maxCacheTime e w;
     if (fresh : bool)
     then Return (ent_data e,
                  {| store := store w; response_content_type := ent_content_type e;
                     now := now w; dblog := dblog w ++ [DbGet key] |})
     else Return (rebuild body key (request_path ctx) args kwargs (db_Get key w).2)).
Proof.
  intros Hc Hr Hp Hkey He. unfold wrapF. rewrite Hc, Hr. simpl.
  rewrite (bool_decide_eq_true_2 _ Hp). simpl. rewrite Hkey. simpl.
  rewrite bool_decide_eq_false_2 by (by eapply keyFromArgs_key_nonempty).
  rewrite He. reflexivity.
Qed.

(** X28: staleness for a [maxCacheTime] that is not zero.  Let caching be
    active for the request, let [keyFromArgs] produce [key] and let the
    store hold [e] under it.  When [maxCacheTime = t] and the cut-off
    time are within the ranges of [timedelta] and [datetime]: a lookup
    [eps] microseconds before [creationtime + t] seconds returns the
    stored data, sets the stored content type and calls no handler; a
    lookup [eps] microseconds after it calls the handler, returns its
    result and overwrites the entry with that result, the handler's
    content type and the time of writing.  When they are not within these
    ranges, the lookup raises [OverflowError]. *)
Theorem wrapF_staleness (f : func) (body : handler) (urls : list string) (us : Z)
    (ls : bool) (ev : list string) (t : Z) (ctx : context)
    (args : list value) (kwargs : gmap string value) (w : world)
    (key : string) (e : cacheEntity) (eps : Z) :
  conf_disableCache ctx = false -> req_disableCache ctx = false ->
  request_path ctx ∈ urls ->
  keyFromArgs digest f us ls ev (request_path ctx) args kwargs ctx = Return (Some key) ->
  store w !! key = Some e ->
  t <> 0 -> 0 < eps ->
  (cutoff_in_range t w ->
   now w = ent_creationtime e + t * 1000000 - eps ->
   wrapF digest f body urls us ls ev (Some t) ctx args kwargs w
   = Return (ent_data e,
             {| store := store w; response_content_type := ent_content_type e;
                now := now w; dblog := dblog w ++ [DbGet key] |})) /\
  (cutoff_in_range t w ->
   now w = ent_creationtime e + t * 1000000 + eps ->
   forall res w',
     body args kwargs (db_Get key w).2 = (res, w') ->
     wrapF digest f body urls us ls ev (Some t) ctx args kwargs w
     = Return (res,
               {| store := <[key := {| ent_data := res; ent_creationtime := now w';
                                       ent_path := request_path ctx;
                                       ent_content_type := response_content_type w' |}]>
                             (store w');
                  response_content_type := response_content_type w';
                  now := now w';
                  dblog := dblog w' ++ [DbPut key] |})) /\
  (~ cutoff_in_range t w ->
   wrapF digest f body urls us ls ev (Some t) ctx args kwargs w = Raise OverflowError).
Proof.
  intros Hc Hr Hp Hkey He Ht Heps.
  rewrite (wrapF_hit f body urls us ls ev (Some t) ctx args kwargs w key e Hc Hr Hp Hkey He).
  split; [|split].
  - intros Hin Hnow. rewrite (fresh_enough_in_range t e _ Ht Hin). simpl.
    assert ((ent_creationtime e >? now w - t * 1000000) = true) as ->
      by (apply Z.gtb_lt; lia).
    done.
  - intros Hin Hnow res w' Hbody. rewrite (fresh_enough_in_range t e _ Ht Hin). simpl.
    assert ((ent_creationtime e >? now w - t * 1000000) = false) as ->
      by (rewrite Z.gtb_ltb; apply Z.ltb_ge; lia).
    unfold rebuild. simpl in Hbody. by rewrite Hbody.
  - intros Hout. by rewrite (fresh_enough_out_of_range t e _ Ht Hout).
Qed.

End WrapF.

Lemma sample_digest_nonempty (items : list (string * value)) : sample_digest items <> "".
Proof. done. Qed.

(** ** The properties at sample inputs *)

(** C2 at [render] with only ["id"] allowlisted: giving ["order"] by
    position changes nothing. *)
Lemma keyFromArgs_ignores_unlisted_witness :
  keyFromArgs sample_digest render 0 false ["id"] "/page/view"
    [VInt 5; VStr "desc"] ∅ ctx0
  = keyFromArgs sample_digest render 0 false ["id"] "/page/view" [VInt 5] ∅ ctx0.
Proof.
  assert ("order" ∉ ["id"]) as Hk by by_computation.
  destruct (keyFromArgs_ignores_unlisted sample_digest render 0 false ["id"]
              "/page/view" [VInt 5] ∅ ctx0 "order" Hk) as (_ & _ & _ & _ & Hsnoc & _).
  apply (Hsnoc (VStr "desc")). reflexivity.
Defined.

(** C5 at [render(5, "desc", order="asc")]. *)
Lemma keyFromArgs_duplicate_raises_witness :
  exists k, keyFromArgs sample_digest render 0 false ["id"; "order"] "/page/view"
              [VInt 5; VStr "desc"] {["order" := VStr "asc"]} ctx0
            = Raise (AssertionError (dupMessage k)).
Proof.
  assert (defaults_fit render) as Hfit by (unfold defaults_fit; simpl; lia).
  assert ("order" ∈ ["id"; "order"]) as Hev by by_computation.
  assert (is_Some (({["order" := VStr "asc"]} : gmap string value) !! "order")) as Hkw
    by by_computation.
  destruct (keyFromArgs_duplicate_raises sample_digest render 0 false ["id"; "order"]
              "/page/view" [VInt 5; VStr "desc"] {["order" := VStr "asc"]} ctx0
              "order" 1%nat Hfit Hev eq_refl) as (k & Hk & _); [simpl; lia|exact Hkw|].
  by exists k.
Defined.

(** C9 for a route that is not cacheable, next to the cacheable route,
    where the wrapper does not reduce to the handler. *)
Lemma wrapF_bypass_witness :
  wrapF sample_digest render sample_body ["/page/view"] 0 false ["id"; "order"]
    (Some 60) ctx0 [VInt 5] ∅ (world_at 0)
  <> Return (sample_body [VInt 5] ∅ (world_at 0)) /\
  wrapF sample_digest render sample_body ["/admin/page/view"] 0 false ["id"; "order"]
    (Some 60) ctx0 [VInt 5] ∅ (world_at 0)
  = Return (sample_body [VInt 5] ∅ (world_at 0)).
Proof.
  split.
  - vm_compute. discriminate.
  - apply wrapF_bypass. right. right. by_computation.
Defined.

(** X28 with [maxCacheTime = 60], one microsecond before the entry
    expires. *)
Lemma wrapF_staleness_witness :
  wrapF sample_digest render sample_body ["/page/view"] 0 false ["id"; "order"]
    (Some 60) ctx0 [VInt 5] ∅ (world_in_2020 59999999 {[sample_key := cached_2020]})
  = Return (VStr "cached",
            {| store := {[sample_key := cached_2020]};
               response_content_type := "text/html";
               now := year_2020 + 59999999; dblog := [DbGet sample_key] |}).
Proof.
  assert ("/page/view" ∈ ["/page/view"]) as Hp by by_computation.
  assert ((60:Z) <> 0) as Ht by lia.
  assert (0 < 1) as Heps by lia.
  assert (keyFromArgs sample_digest render 0 false ["id"; "order"] (request_path ctx0)
            [VInt 5] ∅ ctx0 = Return (Some sample_key)) as Hkey
    by (vm_compute; reflexivity).
  assert (store (world_in_2020 59999999 {[sample_key := cached_2020]}) !! sample_key
          = Some cached_2020) as He by (vm_compute; reflexivity).
  assert (cutoff_in_range 60 (world_in_2020 59999999 {[sample_key := cached_2020]}))
    as Hin by (unfold cutoff_in_range; vm_compute; intuition discriminate).
  destruct (wrapF_staleness sample_digest sample_digest_nonempty render sample_body
              ["/page/view"] 0 false ["id"; "order"] 60 ctx0 [VInt 5] ∅
              (world_in_2020 59999999 {[sample_key := cached_2020]}) sample_key
              cached_2020 1 eq_refl eq_refl Hp Hkey He Ht Heps) as [Hfresh _].
  apply (Hfresh Hin). vm_compute. reflexivity.
Defined.

(** C4, evaluated at the failing input [maxCacheTime = 0]: five seconds
    after the entry was written, past [creationtime + 0], the stored data
    is still served, no handler is called and the store is unchanged,
    where C4 has the handler run again. *)
Lemma wrapF_zero_max_age_serves :
  wrapF sample_digest render sample_body ["/page/view"] 0 false ["id"; "order"]
    (Some 0) ctx0 [VInt 5] ∅ (world_at 5000000)
  = Return (VStr "cached",
            {| store := store (world_at 5000000); response_content_type := "text/html";
               now := 5000000; dblog := [DbGet sample_key] |}).
Proof. vm_compute. reflexivity. Qed.

(** A [maxCacheTime] of 10^14 seconds is beyond the range of [timedelta]:
    the lookup of a stored entry raises [OverflowError]. *)
Lemma wrapF_huge_max_age_overflows :
  wrapF sample_digest render sample_body ["/page/view"] 0 false ["id"; "order"]
    (Some 100000000000000) ctx0 [VInt 5] ∅
    (world_in_2020 1 {[sample_key := cached_2020]})
  = Raise OverflowError.
Proof. vm_compute. reflexivity. Qed.

(** C10 for a stored [True] and for an absent name. *)
Lemma booleanBone_roundtrip_witness :
  booleanBone.unserialize ∅ "active"
    (booleanBone.serialize {["active" := VBool true]} "active" ∅)
  = ({["active" := VBool true]}, true) /\
  booleanBone.unserialize ∅ "active" (booleanBone.serialize ∅ "active" ∅)
  = ({["active" := VBool false]}, true).
Proof.
  split.
  - apply (proj1 (booleanBone_roundtrip "active" {["active" := VBool true]} ∅ ∅) true).
    reflexivity.
  - apply (proj2 (booleanBone_roundtrip "active" ∅ ∅ ∅)). reflexivity.
Defined.

(** * Further properties of the code *)

(** ** The argument dictionary of [keyFromArgs] *)

Lemma foldl_bind_item_rev (l : list (string * value)) (res : gmap string value) :
  foldl bind_item res l = list_to_map (reverse l) ∪ res.
Proof.
  induction l as [|[k v] l IH] using rev_ind; simpl.
  - by rewrite (left_id_L ∅ (∪)).
  - rewrite foldl_app. simpl. rewrite IH. unfold bind_item. simpl.
    rewrite reverse_app. simpl. by rewrite insert_union_l.
Qed.

Lemma has_duplicate_clash (f : func) (ev : list string) (args : list value)
    (kwargs : gmap string value) :
  has_duplicate f ev args kwargs = true <->
  Exists (clashes ev (positional_names ev (argsOrder f) args)) (map_to_list kwargs).
Proof.
  unfold has_duplicate, positional_names. rewrite existsb_exists, Exists_exists. split.
  - intros (k & Hin & Hb). apply andb_true_iff in Hb as [Hev Hkw].
    apply bool_decide_eq_true_1 in Hev. apply bool_decide_eq_true_1 in Hkw as [v Hv].
    exists (k, v). split; [by apply elem_of_map_to_list|].
    split; [done|]. simpl. apply list_elem_of_filter. split; [done|].
    by apply list_elem_of_In.
  - intros ([k v] & Hin & Hev & Hpos). simpl in *.
    apply elem_of_map_to_list in Hin. apply list_elem_of_filter in Hpos as [_ Hpos].
    exists k. split; [by apply list_elem_of_In|].
    rewrite !bool_decide_eq_true_2; by eauto.
Qed.

(** Once the defaults are mapped, argument binding either raises the
    duplicate-argument error or returns the union of the allowlisted
    keywords, the positional bindings and the defaults. *)
Lemma bind_arguments_cases (f : func) (ev : list string) (args : list value)
    (kwargs r0 : gmap string value) :
  default_dict f = Return r0 ->
  (has_duplicate f ev args kwargs = true /\
   exists k, bind_arguments f ev args kwargs = Raise (AssertionError (dupMessage k))) \/
  (has_duplicate f ev args kwargs = false /\
   bind_arguments f ev args kwargs
   = Return (listed_kwargs ev kwargs ∪ (positional_dict ev (argsOrder f) args ∪ r0))).
Proof.
  unfold default_dict, bind_arguments. intros ->. simpl.
  pose proof (map_args_setArgs ev (argsOrder f) args [] r0) as Hsa.
  rewrite map_args_listed in *. simpl in Hsa. rewrite Hsa.
  destruct (has_duplicate f ev args kwargs) eqn:Hdup.
  - left. split; [done|]. apply has_duplicate_clash in Hdup.
    destruct (map_kwargs_raises _ _ _
                (foldl bind_item r0 (listed_pairs ev (argsOrder f) args)) Hdup)
      as (k & Hk & _).
    by exists k.
  - right. split; [done|].
    rewrite map_kwargs_returns.
    2:{ intros Hex. apply has_duplicate_clash in Hex. congruence. }
    f_equal. rewrite foldl_bind_item_union.
    2:{ eapply sublist_NoDup; [apply (NoDup_fst_map_to_list kwargs)|].
        apply fmap_sublist, sublist_filter. }
    rewrite foldl_bind_item_rev. unfold listed_kwargs, positional_dict, listed_pairs.
    by rewrite <- map_filter_alt.
Qed.

Lemma bind_arguments_Return_inv (f : func) (ev : list string) (args : list value)
    (kwargs res : gmap string value) :
  bind_arguments f ev args kwargs = Return res ->
  exists r0, default_dict f = Return r0 /\
             has_duplicate f ev args kwargs = false /\
             res = listed_kwargs ev kwargs ∪ (positional_dict ev (argsOrder f) args ∪ r0).
Proof.
  intros Hb. destruct (default_dict f) as [r0|e] eqn:Hd.
  - exists r0. split; [done|].
    destruct (bind_arguments_cases f ev args kwargs r0 Hd) as [[_ [k Hk]]|[Hdup Hr]].
    + congruence.
    + split; [done|]. congruence.
  - unfold bind_arguments in Hb. unfold default_dict in Hd. by rewrite Hd in Hb.
Qed.

Lemma listed_kwargs_lookup_unlisted (ev : list string) (kwargs : gmap string value)
    (k : string) :
  k ∉ ev -> listed_kwargs ev kwargs !! k = None.
Proof.
  intros Hk. unfold listed_kwargs. apply map_lookup_filter_None. right.
  intros v _ Hev. by apply Hk.
Qed.

Lemma positional_dict_lookup_unlisted (ev names : list string) (args : list value)
    (k : string) :
  k ∉ ev -> positional_dict ev names args !! k = None.
Proof.
  intros Hk. unfold positional_dict. apply not_elem_of_list_to_map_1.
  rewrite list_elem_of_fmap. intros ([k' v] & -> & Hin).
  apply elem_of_reverse, list_elem_of_filter in Hin as [Hev _]. by apply Hk.
Qed.

Lemma positional_dict_lookup_not_given (ev names : list string) (args : list value)
    (k : string) :
  k ∉ take (length args) names -> positional_dict ev names args !! k = None.
Proof.
  intros Hk. unfold positional_dict. apply not_elem_of_list_to_map_1.
  rewrite list_elem_of_fmap. intros ([k' v] & -> & Hin).
  apply elem_of_reverse, list_elem_of_filter in Hin as [_ Hin]. apply Hk.
  apply list_elem_of_lookup in Hin as [i Hi].
  apply lookup_zip_Some in Hi as [Hn Ha].
  apply elem_of_take. exists i. split; [done|]. by eapply lookup_lt_Some.
Qed.

Lemma fst_zip_sublist {A B : Type} (l : list A) (k : list B) :
  (zip l k).*1 `sublist_of` l.
Proof.
  revert k. induction l as [|x l IH]; intros k; [done|].
  destruct k as [|y k]; simpl.
  - apply sublist_nil_l.
  - by apply sublist_skip.
Qed.

Lemma positional_dict_lookup_given (ev names : list string) (args : list value)
    (i : nat) (k : string) (v : value) :
  NoDup names -> names !! i = Some k -> args !! i = Some v -> k ∈ ev ->
  positional_dict ev names args !! k = Some v.
Proof.
  intros Hnd Hn Ha Hev. unfold positional_dict. apply elem_of_list_to_map.
  - rewrite fmap_reverse, reverse_Permutation.
    eapply sublist_NoDup; [exact Hnd|].
    etrans; [apply fmap_sublist, sublist_filter|apply fst_zip_sublist].
  - apply elem_of_reverse, list_elem_of_filter. split; [done|].
    apply list_elem_of_lookup. exists i. by apply lookup_zip_Some.
Qed.

Lemma has_duplicate_false_inv (f : func) (ev : list string) (args : list value)
    (kwargs : gmap string value) (k : string) :
  has_duplicate f ev args kwargs = false ->
  k ∈ ev -> k ∈ take (length args) (argsOrder f) -> kwargs !! k = None.
Proof.
  intros Hdup Hev Hpos. destruct (kwargs !! k) as [v|] eqn:Hkw; [|done].
  assert (has_duplicate f ev args kwargs = true) as Ht; [|congruence].
  unfold has_duplicate. apply existsb_exists. exists k.
  split; [by apply list_elem_of_In|].
  rewrite !bool_decide_eq_true_2; by eauto.
Qed.

(** X1: when the defaults are mapped and no allowlisted parameter is given
    both by position and by keyword, the argument dictionary is the
    allowlisted keywords over the allowlisted positional bindings over the
    defaults: an allowlisted keyword holds its value, an allowlisted
    parameter given at its position holds that value, a parameter given
    neither way holds its default or nothing, and so does every name
    outside the allowlist. *)
Theorem bind_arguments_dict (f : func) (ev : list string) (args : list value)
    (kwargs r0 : gmap string value) :
  default_dict f = Return r0 ->
  has_duplicate f ev args kwargs = false ->
  exists res,
    bind_arguments f ev args kwargs = Return res /\
    res = listed_kwargs ev kwargs ∪ (positional_dict ev (argsOrder f) args ∪ r0) /\
    (forall k v, k ∈ ev -> kwargs !! k = Some v -> res !! k = Some v) /\
    (forall i k v, NoDup (argsOrder f) -> k ∈ ev ->
                   argsOrder f !! i = Some k -> args !! i = Some v ->
                   res !! k = Some v) /\
    (forall k, kwargs !! k = None -> k ∉ take (length args) (argsOrder f) ->
               res !! k = r0 !! k) /\
    (forall k, k ∉ ev -> res !! k = r0 !! k).
Proof.
  intros Hd Hdup.
  destruct (bind_arguments_cases f ev args kwargs r0 Hd) as [[Ht _]|[_ Hr]];
    [congruence|].
  eexists. split; [exact Hr|]. split; [done|]. split; [|split; [|split]].
  - intros k v Hev Hkw. apply lookup_union_Some_l.
    unfold listed_kwargs. by apply map_lookup_filter_Some.
  - intros i k v Hnd Hev Hn Ha. rewrite lookup_union_r.
    + apply lookup_union_Some_l. by apply (positional_dict_lookup_given _ _ _ i).
    + unfold listed_kwargs. apply map_lookup_filter_None. left.
      apply (has_duplicate_false_inv f ev args kwargs k Hdup Hev).
      apply elem_of_take. exists i. split; [done|]. by eapply lookup_lt_Some.
  - intros k Hkw Hpos. rewrite lookup_union_r.
    + rewrite lookup_union_r; [done|]. by apply positional_dict_lookup_not_given.
    + unfold listed_kwargs. apply map_lookup_filter_None. by left.
  - intros k Hk. rewrite lookup_union_r by by apply listed_kwargs_lookup_unlisted.
    rewrite lookup_union_r; [done|]. by apply positional_dict_lookup_unlisted.
Qed.

(** ** What the item list holds *)

Lemma map_user_lookup_other (us : Z) (u : option user) (r r1 : gmap string value)
    (k : string) :
  k <> "__user" -> map_user us u r = Some r1 -> r1 !! k = r !! k.
Proof.
  intros Hk Hu. unfold map_user in Hu.
  repeat match type of Hu with
         | (if ?b then _ else _) = _ => destruct b
         end; simplify_eq; try done; by rewrite lookup_insert_ne.
Qed.

Lemma final_dict_slots (ls : bool) (path : string) (ctx : context)
    (r R : gmap string value) :
  final_dict ls path ctx r = Some R ->
  R !! "__path" = Some (VStr path) /\
  R !! "__appVersion" = Some (VStr (appVersion ctx)) /\
  (ls = true -> R !! "__lang" = Some (VStr (req_language ctx))) /\
  (forall v, conf_cacheEnvironmentKey ctx = Some (EnvValue v) ->
             R !! "_cacheEnvironment" = Some v).
Proof.
  unfold final_dict, map_env, map_lang. intros HR.
  destruct (conf_cacheEnvironmentKey ctx) as [[v|]|]; simplify_eq.
  - split; [|split; [|split]].
    + rewrite lookup_insert_ne by done. apply lookup_insert_eq.
    + apply lookup_insert_eq.
    + intros ->. rewrite !lookup_insert_ne by done. apply lookup_insert_eq.
    + intros v' [= <-]. rewrite !lookup_insert_ne by done. apply lookup_insert_eq.
  - split; [|split; [|split]].
    + rewrite lookup_insert_ne by done. apply lookup_insert_eq.
    + apply lookup_insert_eq.
    + intros ->. rewrite !lookup_insert_ne by done. apply lookup_insert_eq.
    + done.
Qed.

Lemma final_dict_lookup_other (ls : bool) (path : string) (ctx : context)
    (r R : gmap string value) (k : string) :
  k ∉ context_keys -> final_dict ls path ctx r = Some R -> R !! k = r !! k.
Proof.
  unfold context_keys, final_dict, map_env, map_lang. intros Hk HR.
  assert (k <> "__lang" /\ k <> "_cacheEnvironment" /\ k <> "__path"
          /\ k <> "__appVersion") as (? & ? & ? & ?).
  { repeat split; intros ->; apply Hk; by_computation. }
  destruct ls, (conf_cacheEnvironmentKey ctx) as [[v|]|]; simplify_eq;
    by rewrite !lookup_insert_ne.
Qed.

Lemma keyItems_Some_inv (f : func) (us : Z) (ls : bool) (ev : list string)
    (path : string) (args : list value) (kwargs : gmap string value) (ctx : context)
    (l : list (string * value)) :
  keyItems f us ls ev path args kwargs ctx = Return (Some l) ->
  exists res r1 R,
    bind_arguments f ev args kwargs = Return res /\
    map_user us (currentUser ctx) res = Some r1 /\
    final_dict ls path ctx r1 = Some R /\
    all_satisfied (argsOrder f) R = true /\
    l = sorted_items R.
Proof.
  unfold keyItems. destruct (bind_arguments f ev args kwargs) as [res|e]; [|done].
  simpl. intros [= Hc]. rewrite context_items_final in Hc.
  destruct (map_user us (currentUser ctx) res) as [r1|] eqn:Hu; [|done].
  destruct (final_dict ls path ctx r1) as [R|] eqn:HR; [|done].
  destruct (all_satisfied (argsOrder f) R) eqn:Hall; [|done].
  simpl in Hc. injection Hc as <-. by exists res, r1, R.
Qed.

(** The value that the final dictionary holds for a name that the context
    does not fill is the one of the argument dictionary. *)
Lemma keyItems_argument_slot (f : func) (us : Z) (ls : bool) (ev : list string)
    (path : string) (args : list value) (kwargs : gmap string value) (ctx : context)
    (l : list (string * value)) (k : string) :
  keyItems f us ls ev path args kwargs ctx = Return (Some l) ->
  k ∉ context_keys ->
  exists res R r0,
    l = sorted_items R /\ R !! k = res !! k /\
    default_dict f = Return r0 /\
    has_duplicate f ev args kwargs = false /\
    res = listed_kwargs ev kwargs ∪ (positional_dict ev (argsOrder f) args ∪ r0).
Proof.
  intros Hl Hk. apply keyItems_Some_inv in Hl as (res & r1 & R & Hb & Hu & HR & _ & ->).
  apply bind_arguments_Return_inv in Hb as (r0 & Hd & Hdup & Hres).
  exists res, R, r0. split; [done|]. split; [|done].
  rewrite (final_dict_lookup_other _ _ _ _ _ _ Hk HR).
  assert (k <> "__user") as Hne by (intros ->; apply Hk; by_computation).
  apply (map_user_lookup_other _ _ _ _ _ Hne Hu).
Qed.

(** X2: item lists are told apart by the allowlisted arguments.  When two
    invocations of the same handler produce the same item list, an
    allowlisted parameter (not one of the context keys) that both give by
    keyword has the same value in both, and so has one that both give at
    its position, and one given by keyword here and by position there. *)
Theorem keyItems_determine_arguments (f : func) (us : Z) (ls : bool) (ev : list string)
    (path : string) (args1 args2 : list value) (kwargs1 kwargs2 : gmap string value)
    (ctx : context) (l : list (string * value)) (k : string) :
  keyItems f us ls ev path args1 kwargs1 ctx = Return (Some l) ->
  keyItems f us ls ev path args2 kwargs2 ctx = Return (Some l) ->
  k ∈ ev -> k ∉ context_keys ->
  (forall v1 v2, kwargs1 !! k = Some v1 -> kwargs2 !! k = Some v2 -> v1 = v2) /\
  (forall i v1 v2, NoDup (argsOrder f) -> argsOrder f !! i = Some k ->
     args1 !! i = Some v1 -> args2 !! i = Some v2 -> v1 = v2) /\
  (forall i v1 v2, NoDup (argsOrder f) -> argsOrder f !! i = Some k ->
     kwargs1 !! k = Some v1 -> args2 !! i = Some v2 -> v1 = v2).
Proof.
  intros H1 H2 Hev Hk.
  destruct (keyItems_argument_slot _ _ _ _ _ _ _ _ _ k H1 Hk)
    as (res1 & R1 & r0 & -> & HR1 & Hd1 & Hdup1 & Hres1).
  destruct (keyItems_argument_slot _ _ _ _ _ _ _ _ _ k H2 Hk)
    as (res2 & R2 & r0' & HR & HR2 & Hd2 & Hdup2 & Hres2).
  apply sorted_items_inj in HR. subst R2.
  assert (res1 !! k = res2 !! k) as Heq by congruence.
  assert (Hkw : forall kwargs args r v, kwargs !! k = Some v ->
            (listed_kwargs ev kwargs ∪ (positional_dict ev (argsOrder f) args ∪ r)) !! k
            = Some v).
  { intros kwargs args r v Hv. apply lookup_union_Some_l.
    unfold listed_kwargs. by apply map_lookup_filter_Some. }
  assert (Hpos : forall kwargs args r i v,
            has_duplicate f ev args kwargs = false -> NoDup (argsOrder f) ->
            argsOrder f !! i = Some k -> args !! i = Some v ->
            (listed_kwargs ev kwargs ∪ (positional_dict ev (argsOrder f) args ∪ r)) !! k
            = Some v).
  { intros kwargs args r i v Hdup Hnd Hn Ha. rewrite lookup_union_r.
    - apply lookup_union_Some_l. by apply (positional_dict_lookup_given _ _ _ i).
    - unfold listed_kwargs. apply map_lookup_filter_None. left.
      apply (has_duplicate_false_inv f ev args kwargs k Hdup Hev).
      apply elem_of_take. exists i. split; [done|]. by eapply lookup_lt_Some. }
  subst res1 res2. split; [|split].
  - intros v1 v2 Hv1 Hv2.
    rewrite (Hkw _ _ _ _ Hv1), (Hkw _ _ _ _ Hv2) in Heq. congruence.
  - intros i v1 v2 Hnd Hn Hv1 Hv2.
    rewrite (Hpos _ _ _ _ _ Hdup1 Hnd Hn Hv1), (Hpos _ _ _ _ _ Hdup2 Hnd Hn Hv2) in Heq.
    congruence.
  - intros i v1 v2 Hnd Hn Hv1 Hv2.
    rewrite (Hkw _ _ _ _ Hv1), (Hpos _ _ _ _ _ Hdup2 Hnd Hn Hv2) in Heq. congruence.
Qed.

(** X3: item lists are told apart by the context.  When two invocations
    produce the same item list, they have the same path and the same
    application version; with [languageSensitive] they have the same
    language; and when the environment key yields a value in both, it is
    the same value. *)
Theorem keyItems_determine_context (f1 f2 : func) (us1 us2 : Z) (ls : bool)
    (ev1 ev2 : list string) (path1 path2 : string) (args1 args2 : list value)
    (kwargs1 kwargs2 : gmap string value) (ctx1 ctx2 : context)
    (l : list (string * value)) :
  keyItems f1 us1 ls ev1 path1 args1 kwargs1 ctx1 = Return (Some l) ->
  keyItems f2 us2 ls ev2 path2 args2 kwargs2 ctx2 = Return (Some l) ->
  path1 = path2 /\
  appVersion ctx1 = appVersion ctx2 /\
  (ls = true -> req_language ctx1 = req_language ctx2) /\
  (forall v1 v2, conf_cacheEnvironmentKey ctx1 = Some (EnvValue v1) ->
                 conf_cacheEnvironmentKey ctx2 = Some (EnvValue v2) -> v1 = v2).
Proof.
  intros H1 H2.
  apply keyItems_Some_inv in H1 as (res1 & r1 & R1 & _ & _ & HR1 & _ & ->).
  apply keyItems_Some_inv in H2 as (res2 & r2 & R2 & _ & _ & HR2 & _ & HR).
  apply sorted_items_inj in HR. subst R2.
  destruct (final_dict_slots _ _ _ _ _ HR1) as (Hp1 & Hv1 & Hl1 & He1).
  destruct (final_dict_slots _ _ _ _ _ HR2) as (Hp2 & Hv2 & Hl2 & He2).
  repeat split.
  - congruence.
  - congruence.
  - intros Hls. specialize (Hl1 Hls). specialize (Hl2 Hls). congruence.
  - intros v1 v2 E1 E2. specialize (He1 v1 E1). specialize (He2 v2 E2). congruence.
Qed.

Lemma has_duplicate_insert_not_given (f : func) (ev : list string) (args : list value)
    (kwargs : gmap string value) (k : string) (d : value) :
  k ∉ take (length args) (argsOrder f) ->
  has_duplicate f ev args (<[k := d]> kwargs) = has_duplicate f ev args kwargs.
Proof.
  unfold has_duplicate. generalize (take (length args) (argsOrder f)).
  intros l Hk. induction l as [|n l IH]; [done|]. simpl.
  apply not_elem_of_cons in Hk as [Hne Hk]. rewrite (IH Hk).
  by rewrite lookup_insert_ne.
Qed.

Lemma map_args_ignore_extra (ev names : list string) (args extra : list value)
    (sa : list string) (res : gmap string value) :
  (length names <= length args)%nat ->
  map_args ev names (args ++ extra) sa res = map_args ev names args sa res.
Proof.
  revert args sa res. induction names as [|n ns IH]; intros args sa res Hlen.
  - by destruct args, extra.
  - destruct args as [|a args]; simpl in *; [lia|].
    case_bool_decide; apply IH; lia.
Qed.

Lemma context_items_missing_key (f : func) (us : Z) (ls : bool) (path : string)
    (ctx : context) (res : gmap string value) (p : string) :
  p ∈ argsOrder f -> p ∉ context_keys -> res !! p = None ->
  context_items f us ls path ctx res = None.
Proof.
  intros Hin Hp Hres. rewrite context_items_final.
  destruct (map_user us (currentUser ctx) res) as [r1|] eqn:Hu; [|done].
  destruct (final_dict ls path ctx r1) as [R|] eqn:HR; [|done].
  assert (p <> "__user") as Hne by (intros ->; apply Hp; by_computation).
  rewrite (all_satisfied_false _ _ p Hin); [done|].
  rewrite (final_dict_lookup_other _ _ _ _ _ _ Hp HR).
  by rewrite (map_user_lookup_other _ _ _ _ _ Hne Hu).
Qed.

Lemma key_le_total : Total key_le.
Proof. intros x y. unfold key_le. apply String.leb_total. Qed.

Section MoreKeyFromArgs.

Variable digest : list (string * value) -> string.

(** X4: giving an allowlisted parameter by keyword with the value of its
    declared default has the same outcome as leaving it out. *)
Theorem keyFromArgs_default_by_keyword (f : func) (us : Z) (ls : bool)
    (ev : list string) (path : string) (args : list value)
    (kwargs r0 : gmap string value) (ctx : context) (k : string) (d : value) :
  default_dict f = Return r0 -> r0 !! k = Some d ->
  k ∈ ev -> kwargs !! k = None -> k ∉ take (length args) (argsOrder f) ->
  agree (keyFromArgs digest f us ls ev path args (<[k := d]> kwargs) ctx)
        (keyFromArgs digest f us ls ev path args kwargs ctx).
Proof.
  intros Hd Hr0 Hev Hkw Hpos. apply keyFromArgs_agree.
  pose proof (has_duplicate_insert_not_given f ev args kwargs k d Hpos) as Hdup.
  destruct (bind_arguments_cases f ev args (<[k := d]> kwargs) r0 Hd)
    as [[Ht [k1 ->]]|[Hf ->]];
    destruct (bind_arguments_cases f ev args kwargs r0 Hd)
      as [[Ht' [k2 ->]]|[Hf' ->]]; try congruence; simpl; [done|].
  unfold listed_kwargs. rewrite map_filter_insert_True by done.
  rewrite <- insert_union_l. apply insert_id.
  rewrite lookup_union_r.
  - rewrite lookup_union_r; [done|]. by apply positional_dict_lookup_not_given.
  - apply map_lookup_filter_None. by left.
Qed.

(** X5: positional arguments beyond the declared parameters never reach
    the key. *)
Theorem keyFromArgs_ignores_surplus_args (f : func) (us : Z) (ls : bool)
    (ev : list string) (path : string) (args extra : list value)
    (kwargs : gmap string value) (ctx : context) :
  (length (argsOrder f) <= length args)%nat ->
  keyFromArgs digest f us ls ev path (args ++ extra) kwargs ctx
  = keyFromArgs digest f us ls ev path args kwargs ctx.
Proof.
  intros Hlen. unfold keyFromArgs, keyItems, bind_arguments.
  destruct (map_defaults _ _ _) as [r|e]; [|done]. simpl.
  by rewrite map_args_ignore_extra.
Qed.

(** X6: a declared parameter that is outside the allowlist, has no
    default, and is not named like one of the keys that [keyFromArgs]
    fills in from the request ([__user], [__lang], [_cacheEnvironment],
    [__path], [__appVersion]) makes the handler uncacheable, whatever the
    caller passes: no key is ever returned, and [None] is returned
    whenever argument binding raises nothing. *)
Theorem keyFromArgs_unlisted_without_default (f : func) (us : Z) (ls : bool)
    (ev : list string) (path : string) (args : list value)
    (kwargs : gmap string value) (ctx : context) (p : string) :
  p ∈ argsOrder f -> p ∉ ev -> p ∉ context_keys ->
  p ∉ take (length (defaultsOf f)) (reverse (argsOrder f)) ->
  (forall key, keyFromArgs digest f us ls ev path args kwargs ctx <> Return (Some key)) /\
  (defaults_fit f -> has_duplicate f ev args kwargs = false ->
   keyFromArgs digest f us ls ev path args kwargs ctx = Return None).
Proof.
  intros Hin Hev Hctx Hdef. apply keyFromArgs_never_key.
  intros res Hb. apply (context_items_missing_key f us ls path ctx res p Hin Hctx).
  apply bind_arguments_Return_inv in Hb as (r0 & Hd & _ & ->).
  rewrite lookup_union_r by by apply listed_kwargs_lookup_unlisted.
  rewrite lookup_union_r by by apply positional_dict_lookup_unlisted.
  eapply map_defaults_lookup_None; [exact Hd|apply lookup_empty|].
  by rewrite length_reverse.
Qed.

(** X7: of the deployed version only the part before the first dot
    counts: two version identifiers with the same leading part give the
    same outcome, and a request without version identifier is treated
    like one with the empty identifier. *)
Theorem keyFromArgs_major_version (f : func) (us : Z) (ls : bool)
    (ev : list string) (path : string) (args : list value)
    (kwargs : gmap string value) (ctx : context) :
  (forall v1 v2, before_dot v1 = before_dot v2 ->
     keyFromArgs digest f us ls ev path args kwargs (with_version (Some v1) ctx)
     = keyFromArgs digest f us ls ev path args kwargs (with_version (Some v2) ctx)) /\
  keyFromArgs digest f us ls ev path args kwargs (with_version None ctx)
  = keyFromArgs digest f us ls ev path args kwargs (with_version (Some "") ctx).
Proof.
  split; [|done]. intros v1 v2 Hv.
  unfold keyFromArgs, keyItems, context_items, finish_items, appVersion. simpl.
  by rewrite Hv.
Qed.

(** X8: a [userSensitive] value other than 1, 2 and 3 is treated like 0,
    and under mode 1 a guest gets the outcome of mode 0. *)
Theorem keyFromArgs_other_modes (f : func) (us : Z) (ls : bool)
    (ev : list string) (path : string) (args : list value)
    (kwargs : gmap string value) (ctx : context) :
  (us <> 1 -> us <> 2 -> us <> 3 ->
   keyFromArgs digest f us ls ev path args kwargs ctx
   = keyFromArgs digest f 0 ls ev path args kwargs ctx) /\
  (currentUser ctx = None ->
   keyFromArgs digest f 1 ls ev path args kwargs ctx
   = keyFromArgs digest f 0 ls ev path args kwargs ctx).
Proof.
  split.
  - intros H1 H2 H3. unfold keyFromArgs, keyItems, context_items, map_user.
    destruct (us =? 0); simpl; [done|].
    rewrite (proj2 (Z.eqb_neq us 1) H1), (proj2 (Z.eqb_neq us 2) H2),
      (proj2 (Z.eqb_neq us 3) H3). done.
  - intros Hu. unfold keyFromArgs, keyItems, context_items, map_user.
    by rewrite Hu.
Qed.

End MoreKeyFromArgs.

(** X9: an item list, when one is produced, is sorted by key, holds no
    key twice, holds the path and the application version of the request,
    and holds every declared parameter of the handler. *)
Theorem keyItems_shape (f : func) (us : Z) (ls : bool) (ev : list string)
    (path : string) (args : list value) (kwargs : gmap string value) (ctx : context)
    (l : list (string * value)) :
  keyItems f us ls ev path args kwargs ctx = Return (Some l) ->
  Sorted key_le l /\ NoDup l.*1 /\
  ("__path", VStr path) ∈ l /\ ("__appVersion", VStr (appVersion ctx)) ∈ l /\
  (forall p, p ∈ argsOrder f -> p ∈ l.*1).
Proof.
  intros Hl. apply keyItems_Some_inv in Hl as (res & r1 & R & _ & _ & HR & Hall & ->).
  destruct (final_dict_slots _ _ _ _ _ HR) as (Hp & Hv & _ & _).
  unfold sorted_items. split; [|split; [|split; [|split]]].
  - apply Sorted_merge_sort, key_le_total.
  - rewrite merge_sort_Permutation. apply NoDup_fst_map_to_list.
  - rewrite merge_sort_Permutation. by apply elem_of_map_to_list.
  - rewrite merge_sort_Permutation. by apply elem_of_map_to_list.
  - intros p Hin. rewrite merge_sort_Permutation. apply elem_of_keys_map_to_list.
    unfold all_satisfied in Hall. rewrite forallb_forall in Hall.
    apply list_elem_of_In in Hin. specialize (Hall p Hin).
    by apply bool_decide_eq_true_1 in Hall.
Qed.

(** ** The wrapped handler: misses, hits and the store *)

Lemma request_offset_slice (ctx : context) :
  slice_to (req_pathlist ctx) (request_offset ctx)
  = take (length (req_pathlist ctx) - length (req_args ctx)) (req_pathlist ctx).
Proof.
  unfold slice_to, request_offset.
  destruct (req_args ctx) as [|a l]; simpl length.
  - simpl. rewrite Nat.sub_0_r.
    assert ((Z.of_nat (length (req_pathlist ctx)) <? 0) = false) as ->
      by (apply Z.ltb_ge; lia).
    by rewrite Nat2Z.id.
  - assert ((- Z.of_nat (S (length l)) =? 0) = false) as ->
      by (apply Z.eqb_neq; lia).
    assert ((- Z.of_nat (S (length l)) <? 0) = true) as ->
      by (apply Z.ltb_lt; lia).
    f_equal. lia.
Qed.

Section MoreWrapF.

Variable digest : list (string * value) -> string.
Hypothesis digest_nonempty : forall items, digest items <> "".

Variables (f : func) (urls : list string) (us : Z) (ls : bool) (ev : list string).

(** What [wrapF] does once caching is active for the request and a key
    is there. *)
Lemma wrapF_with_key (body : handler) (maxCacheTime : option Z) (ctx : context)
    (args : list value) (kwargs : gmap string value) (w : world) (key : string) :
  conf_disableCache ctx = false -> req_disableCache ctx = false ->
  request_path ctx ∈ urls ->
  keyFromArgs digest f us ls ev (request_path ctx) args kwargs ctx = Return (Some key) ->
  wrapF digest f body urls us ls ev maxCacheTime ctx args kwargs w
  = match store w !! key with
    | Some e =>
        fresh ← fresh_enough maxCacheTime e (db_Get key w).2;
        if (fresh : bool)
        then Return (ent_data e, set_content_type (ent_content_type e) (db_Get key w).2)
        else Return (rebuild body key (request_path ctx) args kwargs (db_Get key w).2)
    | None => Return (rebuild body key (request_path ctx) args kwargs (db_Get key w).2)
    end.
Proof.
  intros Hc Hr Hp Hkey. unfold wrapF. rewrite Hc, Hr. simpl.
  rewrite (bool_decide_eq_true_2 _ Hp). simpl. rewrite Hkey. simpl.
  rewrite bool_decide_eq_false_2; [done|].
  unfold keyFromArgs in Hkey.
  destruct (keyItems f us ls ev (request_path ctx) args kwargs ctx) as [[items|]|e];
    simpl in Hkey; try done.
  injection Hkey as <-. apply digest_nonempty.
Qed.

Lemma wrapF_without_key (body : handler) (maxCacheTime : option Z) (ctx : context)
    (args : list value) (kwargs : gmap string value) (w : world) :
  conf_disableCache ctx = false -> req_disableCache ctx = false ->
  request_path ctx ∈ urls ->
  (forall e, keyFromArgs digest f us ls ev (request_path ctx) args kwargs ctx = Raise e ->
     wrapF digest f body urls us ls ev maxCacheTime ctx args kwargs w = Raise e) /\
  (keyFromArgs digest f us ls ev (request_path ctx) args kwargs ctx = Return None ->
     wrapF digest f body urls us ls ev maxCacheTime ctx args kwargs w
     = Return (body args kwargs w)).
Proof.
  intros Hc Hr Hp. unfold wrapF. rewrite Hc, Hr. simpl.
  rewrite (bool_decide_eq_true_2 _ Hp). simpl. split.
  - by intros e ->.
  - by intros ->.
Qed.

(** X10: write-through.  On a miss the handler runs and its result is
    stored; a later request with the same key is then answered with that
    result and the content type the handler had set, without running any
    handler and without changing the store, for as long as the entry is
    within [maxCacheTime] and [maxCacheTime] and the cut-off time of the
    later request are within the ranges of [timedelta] and [datetime]
    (for ever when there is no [maxCacheTime], or when it is 0). *)
Theorem wrapF_write_through (body body' : handler) (maxCacheTime : option Z)
    (ctx : context) (args : list value) (kwargs : gmap string value)
    (w : world) (key : string) (dt : Z) :
  conf_disableCache ctx = false -> req_disableCache ctx = false ->
  request_path ctx ∈ urls ->
  keyFromArgs digest f us ls ev (request_path ctx) args kwargs ctx = Return (Some key) ->
  store w !! key = None ->
  match maxCacheTime with
  | None => True
  | Some t =>
      t = 0 \/
      (dt < t * 1000000 /\
       cutoff_in_range t (later dt (body args kwargs (db_Get key w).2).2))
  end ->
  exists res w1,
    wrapF digest f body urls us ls ev maxCacheTime ctx args kwargs w = Return (res, w1) /\
    res = (body args kwargs (db_Get key w).2).1 /\
    wrapF digest f body' urls us ls ev maxCacheTime ctx args kwargs (later dt w1)
    = Return (res,
              {| store := store w1;
                 response_content_type
                   := response_content_type (body args kwargs (db_Get key w).2).2;
                 now := now w1 + dt;
                 dblog := dblog w1 ++ [DbGet key] |}).
Proof.
  intros Hc Hr Hp Hkey Hmiss Hfresh.
  rewrite (wrapF_with_key body _ _ _ _ w key Hc Hr Hp Hkey), Hmiss.
  unfold rebuild. destruct (body args kwargs (db_Get key w).2) as [res w'] eqn:Hb.
  eexists _, _. split; [done|]. split; [done|].
  rewrite (wrapF_with_key body' _ _ _ _ _ key Hc Hr Hp Hkey). simpl.
  rewrite lookup_insert_eq.
  destruct maxCacheTime as [t|]; [|done].
  destruct (decide (t = 0)) as [->|Ht]; [done|].
  destruct Hfresh as [->|[Hdt Hin]]; [done|].
  rewrite fresh_enough_in_range; [|done|exact Hin]. simpl.
  assert ((now w' >? now w' + dt - t * 1000000) = true) as -> by (apply Z.gtb_lt; lia).
  done.
Qed.

(** X11: without [maxCacheTime], or with [maxCacheTime = 0], a stored
    entry is served whatever its age: the handler does not run and the
    store is left as it is. *)
Theorem wrapF_unlimited (body : handler) (maxCacheTime : option Z)
    (ctx : context) (args : list value) (kwargs : gmap string value)
    (w : world) (key : string) (e : cacheEntity) :
  conf_disableCache ctx = false -> req_disableCache ctx = false ->
  request_path ctx ∈ urls ->
  keyFromArgs digest f us ls ev (request_path ctx) args kwargs ctx = Return (Some key) ->
  store w !! key = Some e ->
  maxCacheTime = None \/ maxCacheTime = Some 0 ->
  wrapF digest f body urls us ls ev maxCacheTime ctx args kwargs w
  = Return (ent_data e,
            {| store := store w; response_content_type := ent_content_type e;
               now := now w; dblog := dblog w ++ [DbGet key] |}).
Proof.
  intros Hc Hr Hp Hkey He Hmax.
  rewrite (wrapF_with_key body _ _ _ _ w key Hc Hr Hp Hkey), He.
  by destruct Hmax as [->| ->].
Qed.

(** X12: for a handler whose defaults do not outnumber the parameters
    after the receiver (the receiver has no default), a request that
    gives an allowlisted parameter both by position and by keyword is not
    answered at all when caching is active for it: the wrapped handler
    raises the duplicate-argument error, and the handler does not run. *)
Theorem wrapF_duplicate_raises (body : handler) (maxCacheTime : option Z)
    (ctx : context) (args : list value) (kwargs : gmap string value)
    (w : world) (k : string) :
  conf_disableCache ctx = false -> req_disableCache ctx = false ->
  request_path ctx ∈ urls ->
  defaults_fit f ->
  k ∈ ev -> k ∈ take (length args) (argsOrder f) -> is_Some (kwargs !! k) ->
  exists k', wrapF digest f body urls us ls ev maxCacheTime ctx args kwargs w
             = Raise (AssertionError (dupMessage k')).
Proof.
  intros Hc Hr Hp Hfit Hev Hpos Hkw.
  destruct (bind_arguments_raises f ev args kwargs k Hfit Hev Hpos Hkw)
    as (k' & Hb & _).
  exists k'. apply (wrapF_without_key body maxCacheTime ctx args kwargs w Hc Hr Hp).
  unfold keyFromArgs, keyItems. by rewrite Hb.
Qed.

(** X13: for a logged-in caller under mode 1, and whenever the
    environment key fails with [RuntimeError], the wrapped handler is the
    handler: it runs, nothing is read from the store and nothing is
    written (provided argument binding raises nothing). *)
Theorem wrapF_uncacheable_runs_handler (body : handler) (maxCacheTime : option Z)
    (ctx : context) (args : list value) (kwargs : gmap string value) (w : world) :
  conf_disableCache ctx = false -> req_disableCache ctx = false ->
  request_path ctx ∈ urls ->
  defaults_fit f -> has_duplicate f ev args kwargs = false ->
  (us = 1 /\ is_Some (currentUser ctx)) \/
  conf_cacheEnvironmentKey ctx = Some EnvRuntimeError ->
  wrapF digest f body urls us ls ev maxCacheTime ctx args kwargs w
  = Return (body args kwargs w).
Proof.
  intros Hc Hr Hp Hfit Hdup Hcase.
  apply (wrapF_without_key body maxCacheTime ctx args kwargs w Hc Hr Hp).
  apply keyFromArgs_never_key; [|done..].
  intros res _. unfold context_items.
  destruct Hcase as [[-> [u Hu]]|Henv].
  - by rewrite Hu.
  - destruct (map_user us (currentUser ctx) res); [|done].
    unfold map_env. by rewrite Henv.
Qed.

(** X14: the wrapped handler writes at most one entity.  For a handler
    that leaves the cache entities alone, every entity of the store after
    the call is either the one that was there before, or the one written
    under the computed key, which holds the returned value, the path of
    the request, the content type of the response and the time of
    writing; nothing is deleted, and when every stored path was one of
    the cacheable routes, it still is. *)
Theorem wrapF_store_frame (body : handler) (maxCacheTime : option Z)
    (ctx : context) (args : list value) (kwargs : gmap string value)
    (w w' : world) (v : value) :
  keeps_store body ->
  wrapF digest f body urls us ls ev maxCacheTime ctx args kwargs w = Return (v, w') ->
  (forall k, store w' !! k = store w !! k \/
     (keyFromArgs digest f us ls ev (request_path ctx) args kwargs ctx = Return (Some k) /\
      store w' !! k
      = Some {| ent_data := v; ent_creationtime := now w';
                ent_path := request_path ctx;
                ent_content_type := response_content_type w' |})) /\
  (forall k, is_Some (store w !! k) -> is_Some (store w' !! k)) /\
  (paths_within urls (store w) -> paths_within urls (store w')).
Proof.
  intros Hkeep Hw.
  assert (Hdirect : Return (body args kwargs w) = Return (v, w') ->
            forall k, store w' !! k = store w !! k).
  { intros [= Hb] k. pose proof (Hkeep args kwargs w) as Hs. rewrite Hb in Hs.
    simpl in Hs. by rewrite Hs. }
  assert (Hmain : (forall k, store w' !! k = store w !! k) \/
            (request_path ctx ∈ urls /\
             exists key,
               keyFromArgs digest f us ls ev (request_path ctx) args kwargs ctx
               = Return (Some key) /\
               store w'
               = <[key := {| ent_data := v; ent_creationtime := now w';
                             ent_path := request_path ctx;
                             ent_content_type := response_content_type w' |}]>
                   (store w))).
  { unfold wrapF in Hw.
    destruct (conf_disableCache ctx || req_disableCache ctx); [left; by apply Hdirect|].
    case_bool_decide as Hp; simpl in Hw; [|left; by apply Hdirect].
    destruct (keyFromArgs digest f us ls ev (request_path ctx) args kwargs ctx)
      as [[key|]|e] eqn:Hkey; simpl in Hw; [|left; by apply Hdirect|done].
    case_bool_decide; [left; by apply Hdirect|].
    assert (Hreb : Return (rebuild body key (request_path ctx) args kwargs (db_Get key w).2)
                   = Return (v, w') ->
              store w'
              = <[key := {| ent_data := v; ent_creationtime := now w';
                            ent_path := request_path ctx;
                            ent_content_type := response_content_type w' |}]>
                  (store w)).
    { unfold rebuild. pose proof (Hkeep args kwargs (db_Get key w).2) as Hs.
      destruct (body args kwargs (db_Get key w).2) as [res w2].
      simpl in Hs. intros [= <- <-]. simpl. by rewrite Hs. }
    simpl in Hw. destruct (store w !! key) as [e|] eqn:He.
    - destruct (fresh_enough maxCacheTime e _) as [[|]|err]; simpl in Hw; [| |done].
      + left. injection Hw as <- <-. done.
      + right. split; [done|]. exists key. split; [done|]. by apply Hreb.
    - right. split; [done|]. exists key. split; [done|]. by apply Hreb. }
  destruct Hmain as [Hsame|(Hp & key & Hkey & Hst)].
  - split; [by left|]. split.
    + intros k. by rewrite Hsame.
    + intros Hin k e. rewrite Hsame. apply Hin.
  - split; [|split].
    + intros k. destruct (decide (k = key)) as [->|Hne].
      * right. split; [done|]. rewrite Hst. apply lookup_insert_eq.
      * left. rewrite Hst. by apply lookup_insert_ne.
    + intros k Hk. rewrite Hst. destruct (decide (k = key)) as [->|Hne].
      * rewrite lookup_insert_eq. by eexists.
      * by rewrite lookup_insert_ne.
    + intros Hin k e. rewrite Hst. destruct (decide (k = key)) as [->|Hne].
      * rewrite lookup_insert_eq. by intros [= <-].
      * rewrite lookup_insert_ne by done. apply Hin.
Qed.

(** X15: after [flushCache], a request whose entry was among the flushed
    paths is a miss: the handler runs again and its result is stored;
    a request whose entry was not among them is answered as before. *)
Theorem wrapF_after_flush (body : handler) (maxCacheTime : option Z)
    (ctx : context) (args : list value) (kwargs : gmap string value)
    (w : world) (key : string) (e : cacheEntity) (prefix : string) :
  conf_disableCache ctx = false -> req_disableCache ctx = false ->
  request_path ctx ∈ urls ->
  keyFromArgs digest f us ls ev (request_path ctx) args kwargs ctx = Return (Some key) ->
  store w !! key = Some e ->
  (flushed prefix (ent_path e) = true ->
   wrapF digest f body urls us ls ev maxCacheTime ctx args kwargs
     (with_store (flushCache prefix (store w)) w)
   = Return (rebuild body key (request_path ctx) args kwargs
               (db_Get key (with_store (flushCache prefix (store w)) w)).2)) /\
  (flushed prefix (ent_path e) = false ->
   fresh_enough maxCacheTime e w = Return true ->
   wrapF digest f body urls us ls ev maxCacheTime ctx args kwargs
     (with_store (flushCache prefix (store w)) w)
   = Return (ent_data e,
             {| store := flushCache prefix (store w);
                response_content_type := ent_content_type e;
                now := now w; dblog := dblog w ++ [DbGet key] |})).
Proof.
  intros Hc Hr Hp Hkey He. split.
  - intros Hf. rewrite (wrapF_with_key body _ _ _ _ _ key Hc Hr Hp Hkey). simpl.
    by rewrite lookup_flushCache, He, Hf.
  - intros Hf Hfresh. rewrite (wrapF_with_key body _ _ _ _ _ key Hc Hr Hp Hkey).
    cbn [with_store store]. rewrite lookup_flushCache, He, Hf.
    change (fresh_enough maxCacheTime e
              (db_Get key (with_store (flushCache prefix (store w)) w)).2)
      with (fresh_enough maxCacheTime e w).
    by rewrite Hfresh.
Qed.

End MoreWrapF.

(** X16: the path of a request is a slash followed by its path segments
    joined by slashes, without as many trailing segments as the request
    has positional arguments: all segments when it has none, no segment
    when it has at least as many arguments as segments. *)
Theorem request_path_closed_form (ctx : context) :
  request_path ctx
  = "/" ++ String.concat "/"
             (take (length (req_pathlist ctx) - length (req_args ctx)) (req_pathlist ctx)) /\
  (req_args ctx = [] -> request_path ctx = "/" ++ String.concat "/" (req_pathlist ctx)) /\
  ((length (req_pathlist ctx) <= length (req_args ctx))%nat ->
   req_args ctx <> [] -> request_path ctx = "/").
Proof.
  unfold request_path. rewrite request_offset_slice. split; [done|]. split.
  - intros ->. simpl. by rewrite Nat.sub_0_r, firstn_all.
  - intros Hle _. by replace (length (req_pathlist ctx) - length (req_args ctx))%nat
      with 0%nat by lia.
Qed.

(** ** [flushCache]: how flushes compose *)

Lemma string_app_assoc (a b c : string) : (a ++ b) ++ c = a ++ (b ++ c).
Proof.
  induction a as [|x a IH]; [done|]. rewrite !append_cons. by rewrite IH.
Qed.

Lemma string_app_eq_self (s r : string) : s ++ r = s -> r = "".
Proof.
  intros H. rewrite <- (string_app_empty_r s) in H at 2.
  by apply String.app_inj in H.
Qed.

Lemma rstrip_star_cons (c : ascii) (s : string) :
  rstrip_star (String c s)
  = match rstrip_star s with
    | EmptyString => if Ascii.eqb c "*"%char then EmptyString else String c EmptyString
    | r => String c r
    end.
Proof. reflexivity. Qed.

Lemma rstrip_star_app_star (s : string) : rstrip_star (s ++ "*") = rstrip_star s.
Proof.
  induction s as [|c s IH]; [done|].
  rewrite append_cons, !rstrip_star_cons. by rewrite IH.
Qed.

Lemma endswith_star_app_star (s : string) : endswith_star (s ++ "*") = true.
Proof.
  induction s as [|c s IH]; [done|]. rewrite append_cons.
  destruct s as [|d s]; [done|]. rewrite append_cons in *.
  exact IH.
Qed.

Lemma endswith_star_app_slash (s : string) : endswith_star (s ++ "/") = false.
Proof.
  induction s as [|c s IH]; [done|]. rewrite append_cons.
  destruct s as [|d s]; [done|]. rewrite append_cons in *.
  exact IH.
Qed.

Lemma flushed_more_stars (s p : string) : flushed (s ++ "**") p = flushed (s ++ "*") p.
Proof.
  unfold flushed. change "**" with ("*" ++ "*"). rewrite <- string_app_assoc.
  by rewrite rstrip_star_app_star, !endswith_star_app_star.
Qed.

Lemma flushCache_ext (p q : string) (st : gmap string cacheEntity) :
  (forall path, flushed p path = flushed q path) ->
  flushCache p st = flushCache q st.
Proof.
  intros Hpq. apply map_eq. intros k. rewrite !lookup_flushCache.
  destruct (st !! k) as [e|]; [|done]. by rewrite Hpq.
Qed.

(** X17: flushes only remove, and their order does not matter: what is
    stored after two flushes was stored before, unchanged, and flushing
    with [p] after [q] leaves the same store as flushing with [q] after
    [p]. *)
Theorem flushCache_compose (p q : string) (st : gmap string cacheEntity) :
  flushCache p st ⊆ st /\
  flushCache p (flushCache q st) = flushCache q (flushCache p st) /\
  (forall k e, flushCache p (flushCache q st) !! k = Some e <->
     st !! k = Some e /\ flushed p (ent_path e) = false
     /\ flushed q (ent_path e) = false).
Proof.
  assert (Hl : forall k, flushCache p (flushCache q st) !! k
                 = match st !! k with
                   | Some e => if flushed p (ent_path e) || flushed q (ent_path e)
                               then None else Some e
                   | None => None
                   end).
  { intros k. rewrite !lookup_flushCache. destruct (st !! k) as [e|]; [|done].
    destruct (flushed q (ent_path e)); [by rewrite orb_true_r|].
    by rewrite orb_false_r. }
  split; [|split].
  - apply map_subseteq_spec. intros k e. rewrite lookup_flushCache.
    destruct (st !! k) as [e'|]; [|done]. by destruct (flushed p (ent_path e')).
  - apply map_eq. intros k. rewrite Hl. rewrite !lookup_flushCache.
    destruct (st !! k) as [e|]; [|done].
    destruct (flushed p (ent_path e)); simpl; [done|].
    by destruct (flushed q (ent_path e)).
  - intros k e. rewrite Hl. destruct (st !! k) as [e'|].
    + split.
      * destruct (flushed p (ent_path e')) eqn:Hp, (flushed q (ent_path e')) eqn:Hq;
          simpl; try done. by intros [= <-].
      * intros ([= ->] & Hp & Hq). by rewrite Hp, Hq.
    + split; [done|]. by intros [? _].
Qed.

(** X18: further wildcard markers at the end of a prefix change nothing:
    the prefix [s ++ "**"] flushes what [s ++ "*"] flushes. *)
Theorem flushCache_more_stars (s : string) (st : gmap string cacheEntity) :
  flushCache (s ++ "**") st = flushCache (s ++ "*") st.
Proof. apply flushCache_ext, flushed_more_stars. Qed.

(** X19: a wildcard flush covers the flushes below its stem.  When the
    stem of [q] is the stem of the wildcard prefix [p], or extends it by a
    rest whose first byte is below 239, every path that [q] flushes is
    flushed by [p], and flushing with [p] after [q] is flushing with
    [p]. *)
Theorem flushCache_wildcard_covers (p q rest : string) (st : gmap string cacheEntity) :
  endswith_star p = true ->
  rstrip_star q = rstrip_star p ++ rest ->
  match rest with
  | EmptyString => True
  | String c _ => Ascii.compare c "239"%char = Lt
  end ->
  (forall path, flushed q path = true -> flushed p path = true) /\
  flushCache p (flushCache q st) = flushCache p st.
Proof.
  intros Hp Hq Hrest.
  assert (Hcov : forall path, flushed q path = true -> flushed p path = true).
  { intros path Hf. apply (flushed_wildcard p path Hp).
    assert (under_stem (rstrip_star q) path) as Hu.
    { unfold flushed, path_eq in Hf. apply orb_true_iff in Hf as [Hf|Hf].
      - left. by apply String.eqb_eq.
      - apply andb_true_iff in Hf as [_ Hf]. right. by apply path_between_spec. }
    rewrite Hq in Hu. destruct rest as [|c rest].
    - by rewrite string_app_empty_r in Hu.
    - right. destruct Hu as [->|(r & -> & _ & _)].
      + exists (String c rest). split; [done|]. split; [done|].
        unfold String.ltb, ufffd. simpl. by rewrite Hrest.
      + exists (String c rest ++ r). rewrite string_app_assoc.
        split; [done|]. split; [by rewrite append_cons|].
        rewrite append_cons. unfold String.ltb, ufffd. simpl. by rewrite Hrest. }
  split; [done|]. apply map_eq. intros k. rewrite !lookup_flushCache.
  destruct (st !! k) as [e|]; [|done].
  destruct (flushed q (ent_path e)) eqn:Hf; [|done].
  by rewrite (Hcov _ Hf).
Qed.

(** X20: the wildcard prefix of a module does not reach the module's own
    path: [flushCache (s ++ "/*")] keeps every entity whose path is [s]. *)
Theorem flushCache_wildcard_keeps_parent (s : string) (st : gmap string cacheEntity)
    (k : string) (e : cacheEntity) :
  st !! k = Some e -> ent_path e = s ->
  flushCache (s ++ "/*") st !! k = Some e.
Proof.
  intros Hk Hp. rewrite lookup_flushCache, Hk.
  assert (flushed (s ++ "/*") (ent_path e) = false) as ->; [|done].
  unfold flushed. change "/*" with ("/" ++ "*"). rewrite <- string_app_assoc.
  rewrite rstrip_star_app_star, endswith_star_app_star.
  rewrite (rstrip_star_no_star _ (endswith_star_app_slash s)). rewrite Hp. simpl.
  apply orb_false_iff. split.
  - unfold path_eq. apply String.eqb_neq. intros Heq. symmetry in Heq.
    by apply string_app_eq_self in Heq.
  - destruct (path_between (s ++ "/") s) eqn:Hb; [|done].
    apply path_between_spec in Hb as (r & Hr & _). symmetry in Hr.
    rewrite string_app_assoc in Hr. by apply string_app_eq_self in Hr.
Qed.

(** X21: the default prefix ["/*"] empties a store in which every path is
    a slash, alone or followed by a byte below 239. *)
Theorem flushCache_default_empties (st : gmap string cacheEntity) :
  (forall k e, st !! k = Some e ->
     ent_path e = "/" \/
     exists c rest, ent_path e = String "/" (String c rest)
                    /\ Ascii.compare c "239"%char = Lt) ->
  flushCache "/*" st = ∅.
Proof.
  intros Hall. apply map_eq. intros k. rewrite lookup_flushCache, lookup_empty.
  destruct (st !! k) as [e|] eqn:Hk; [|done].
  assert (flushed "/*" (ent_path e) = true) as ->; [|done].
  apply (flushed_wildcard "/*" _ eq_refl). change (rstrip_star "/*") with "/".
  destruct (Hall k e Hk) as [->|(c & rest & -> & Hc)]; [by left|].
  right. exists (String c rest). split; [done|]. split; [done|].
  unfold String.ltb, ufffd. simpl. by rewrite Hc.
Qed.

(** ** [booleanBone]: coercion, client data and defaults *)

Lemma pretty_N_go_digits (x : N) (s : string) :
  all_digits s = true -> all_digits (pretty_N_go x s) = true.
Proof.
  revert s. induction (N.lt_wf_0 x) as [x _ IH]; intros s Hs.
  assert (x = 0 \/ 0 < x)%N as [->|Hx] by lia.
  - by rewrite pretty_N_go_0.
  - rewrite pretty_N_go_step by done. apply IH; [by apply N.div_lt|].
    simpl. rewrite Hs, andb_true_r. unfold pretty_N_char.
    by repeat case_match.
Qed.

Lemma pretty_Z_numeral (n : Z) : numeral (pretty n) = true.
Proof.
  destruct n as [|p|p]; [done| |].
  - change (pretty (Z.pos p)) with (pretty_N_go (N.pos p) "").
    pose proof (pretty_N_go_digits (N.pos p) "" eq_refl) as Hd.
    unfold numeral. destruct (pretty_N_go (N.pos p) "") as [|c s]; [done|].
    destruct (Ascii.eqb c "-"%char) eqn:Hc; [|done].
    apply Ascii.eqb_eq in Hc as ->. by simpl in Hd.
  - change (pretty (Z.neg p)) with ("-" ++ pretty_N_go (N.pos p) "").
    rewrite append_cons, append_nil_l. simpl.
    by apply pretty_N_go_digits.
Qed.

Lemma isTrue_int (n : Z) : booleanBone.isTrue (VInt n) = true <-> n = 1.
Proof.
  unfold booleanBone.isTrue, booleanBone.trueStrs. rewrite bool_decide_eq_true.
  simpl. rewrite !elem_of_cons, elem_of_nil. split.
  - intros [H|[H|[H|[]]]].
    + pose proof (pretty_Z_numeral n) as Hn. by rewrite H in Hn.
    + by apply (inj pretty).
    + pose proof (pretty_Z_numeral n) as Hn. by rewrite H in Hn.
  - intros ->. right. by left.
Qed.

Lemma isTrue_spec (v : value) : booleanBone.isTrue v = true <-> v ∈ booleanBone.truthy.
Proof.
  unfold booleanBone.truthy. rewrite !elem_of_cons, elem_of_nil.
  destruct v as [|b|n|s].
  - split; [done|]. intros [H|[H|[H|[H|[H|[]]]]]]; discriminate.
  - destruct b; split; try done; [by left|].
    intros [H|[H|[H|[H|[H|[]]]]]]; discriminate.
  - rewrite isTrue_int. split.
    + intros ->. right. by left.
    + intros [H|[H|[H|[H|[H|[]]]]]]; try discriminate. by injection H.
  - unfold booleanBone.isTrue, booleanBone.trueStrs. rewrite bool_decide_eq_true.
    simpl. rewrite !elem_of_cons, elem_of_nil. split.
    + intros [->|[->|[->|[]]]]; auto 6.
    + intros [H|[H|[H|[H|[H|[]]]]]]; try discriminate; injection H as ->; auto.
Qed.

Lemma isTrue_bool (b : bool) : booleanBone.isTrue (VBool b) = b.
Proof. by destruct b. Qed.

Lemma unserialize_isTrue (vc expando : gmap string value) (name : string) (val : value) :
  expando !! name = Some val ->
  booleanBone.unserialize vc name expando
  = (<[name := VBool (booleanBone.isTrue val)]> vc, true).
Proof.
  intros He. unfold booleanBone.unserialize, booleanBone.isTrue. rewrite He.
  by case_bool_decide.
Qed.

(** X22: reading from the datastore is a fixed truth table.  A stored
    value reads as [True] exactly when it is [True], the integer 1, or one
    of the strings ["True"], ["1"] and ["yes"]; every other stored value
    reads as [False]; a name that is not stored leaves the values
    untouched. *)
Theorem unserialize_truth_table (vc expando : gmap string value) (name : string) :
  (forall val, expando !! name = Some val ->
     (val ∈ booleanBone.truthy /\
      booleanBone.unserialize vc name expando = (<[name := VBool true]> vc, true)) \/
     ((val ∉ booleanBone.truthy) /\
      booleanBone.unserialize vc name expando = (<[name := VBool false]> vc, true))) /\
  (expando !! name = None -> booleanBone.unserialize vc name expando = (vc, true)).
Proof.
  split.
  - intros val He. rewrite (unserialize_isTrue _ _ _ _ He).
    destruct (booleanBone.isTrue val) eqn:Ht.
    + left. split; [|done]. by apply isTrue_spec.
    + right. split; [|done]. intros Hin. apply isTrue_spec in Hin. congruence.
  - intros He. unfold booleanBone.unserialize. by rewrite He.
Qed.

(** X23: writing a bone and reading it back normalises the value.
    Whatever the values hold under [name], after [serialize] and
    [unserialize] they hold the boolean it reads as ([False] when
    nothing was held), every other name is as before, and a second round
    trip changes nothing. *)
Theorem booleanBone_roundtrip_normalises (name : string)
    (vc entity entity' : gmap string value) :
  let vc' := (booleanBone.unserialize vc name (booleanBone.serialize vc name entity)).1 in
  vc' !! name
  = Some (VBool (booleanBone.isTrue (default (VBool false) (vc !! name)))) /\
  (forall k, k <> name -> vc' !! k = vc !! k) /\
  (booleanBone.unserialize vc' name (booleanBone.serialize vc' name entity')).1 = vc'.
Proof.
  assert (Hrt : forall c ent,
            (booleanBone.unserialize c name (booleanBone.serialize c name ent)).1
            = <[name := VBool (booleanBone.isTrue (default (VBool false) (c !! name)))]> c).
  { intros c ent. rewrite (unserialize_isTrue _ _ _ (default (VBool false) (c !! name))).
    - done.
    - unfold booleanBone.serialize. apply lookup_insert_eq. }
  simpl. rewrite !Hrt. split; [apply lookup_insert_eq|]. split.
  - intros k Hk. by rewrite lookup_insert_ne.
  - rewrite lookup_insert_eq. simpl. rewrite isTrue_bool. apply insert_insert_eq.
Qed.

(** X24: [fromClient] touches the values under [name] only, and only on
    success.  When it returns [False], the submitted value passed the
    validation as a boolean and the values are what [unserialize] would
    have made of the same data; when it returns errors, the values are
    untouched and there is one error, for [name], of severity [NotSet]
    exactly when the field was not submitted. *)
Theorem fromClient_outcomes (isInvalid : value -> option string)
    (vc data : gmap string value) (name : string) :
  let r := booleanBone.fromClient isInvalid vc name data in
  (forall k, k <> name -> r.1 !! k = vc !! k) /\
  (r.2 = booleanBone.ReturnedFalse ->
   exists val, data !! name = Some val /\
               isInvalid (VBool (booleanBone.isTrue val)) = None /\
               r.1 !! name = Some (VBool (booleanBone.isTrue val)) /\
               r.1 = (booleanBone.unserialize vc name data).1) /\
  (forall errs, r.2 = booleanBone.Errors errs ->
   r.1 = vc /\
   exists sev msg,
     errs = [{| booleanBone.severity := sev; booleanBone.fieldPath := name;
                booleanBone.errorMessage := msg |}] /\
     (sev = booleanBone.NotSet <-> data !! name = None)).
Proof.
  unfold booleanBone.fromClient.
  destruct (data !! name) as [val|] eqn:Hd; simpl.
  - change (VBool (if bool_decide (booleanBone.str val ∈ booleanBone.trueStrs)
                   then true else false))
      with (VBool (if booleanBone.isTrue val then true else false)).
    assert ((if booleanBone.isTrue val then true else false) = booleanBone.isTrue val)
      as -> by by destruct (booleanBone.isTrue val).
    destruct (isInvalid (VBool (booleanBone.isTrue val))) as [err|] eqn:Hi; simpl.
    + split; [done|]. split; [done|]. intros errs [= <-]. split; [done|].
      exists booleanBone.Empty, err. split; [done|]. split; done.
    + split; [intros k Hk; by rewrite lookup_insert_ne|]. split; [|done].
      intros _. exists val. split; [done|]. split; [done|].
      split; [apply lookup_insert_eq|]. by rewrite (unserialize_isTrue _ _ _ _ Hd).
  - split; [done|]. split; [done|]. intros errs [= <-]. split; [done|].
    exists booleanBone.NotSet, "Field not submitted". split; [done|]. split; done.
Qed.

(** X25: the assertion of [__init__] compares with [==], so it accepts
    the integers 1 and 0 beside [True] and [False], and nothing else. *)
Theorem init_accepts (defaultValue : value) :
  (defaultValue ∈ booleanBone.accepted_defaults ->
   booleanBone.init defaultValue = Return defaultValue) /\
  (defaultValue ∉ booleanBone.accepted_defaults ->
   booleanBone.init defaultValue = Raise (AssertionError "")).
Proof.
  unfold booleanBone.accepted_defaults, booleanBone.init, booleanBone.py_in.
  rewrite !elem_of_cons, !elem_of_nil. simpl. split.
  - intros H. repeat (destruct H as [H|H]); try done; by subst.
  - intros H. destruct defaultValue as [|[]|n|s]; simpl; try done.
    + exfalso. apply H. auto.
    + exfalso. apply H. auto.
    + destruct (n =? 1) eqn:E1; simpl.
      * apply Z.eqb_eq in E1 as ->. exfalso. apply H. auto.
      * destruct (n =? 0) eqn:E0; simpl; [|done].
        apply Z.eqb_eq in E0 as ->. exfalso. apply H. auto 6.
Qed.

(** X26: [buildDBFilter] looks at the raw filter under [name] only, and
    only at what it reads as: without that entry the filter is returned
    as it is, and two raw filters whose entries read as the same boolean
    build the same filter. *)
Theorem buildDBFilter_coerces {Skel Filter : Type}
    (base : string -> Skel -> Filter -> gmap string value -> option string -> Filter)
    (name : string) (skel : Skel) (dbFilter : Filter)
    (rawFilter : gmap string value) (prefix : option string) :
  (rawFilter !! name = None ->
   booleanBone.buildDBFilter base name skel dbFilter rawFilter prefix = dbFilter) /\
  (forall val, rawFilter !! name = Some val ->
   booleanBone.buildDBFilter base name skel dbFilter rawFilter prefix
   = base name skel dbFilter {[name := VBool (booleanBone.isTrue val)]} prefix) /\
  (forall rawFilter',
     booleanBone.isTrue <$> rawFilter !! name = booleanBone.isTrue <$> rawFilter' !! name ->
     booleanBone.buildDBFilter base name skel dbFilter rawFilter prefix
     = booleanBone.buildDBFilter base name skel dbFilter rawFilter' prefix).
Proof.
  unfold booleanBone.buildDBFilter. split; [by intros ->|]. split.
  - intros val ->. unfold booleanBone.isTrue. by case_bool_decide.
  - intros raw' Heq.
    destruct (rawFilter !! name) as [v|], (raw' !! name) as [v'|]; simpl in Heq;
      try done.
    injection Heq as Heq. unfold booleanBone.isTrue in Heq. by rewrite Heq.
Qed.

(** ** [enableCache] *)

(** X27: [enableCache] refuses an allowlist with a name that begins with
    an underscore, and otherwise hands out [wrapF].  With an allowlist it
    accepts, no argument of a request reaches a key of the argument
    dictionary that begins with an underscore: such a key holds what the
    declared defaults put there, or nothing. *)
Theorem enableCache_guards (digest : list (string * value) -> string)
    (urls : list string) (us : Z) (ls : bool) (ev : list string)
    (maxCacheTime : option Z) :
  (existsb startswith_underscore ev = true ->
   enableCache digest urls us ls ev maxCacheTime
   = Raise (AssertionError underscoreMessage)) /\
  (forall deco, enableCache digest urls us ls ev maxCacheTime = Return deco ->
     (forall f body, deco f body = wrapF digest f body urls us ls ev maxCacheTime) /\
     (forall f args kwargs res r0 q,
        startswith_underscore q = true ->
        default_dict f = Return r0 ->
        bind_arguments f ev args kwargs = Return res ->
        res !! q = r0 !! q)).
Proof.
  unfold enableCache. split.
  - intros Hex. unfold enableCache_assert. by rewrite Hex.
  - intros deco Hd. destruct (enableCache_assert ev) eqn:Ha; [|done].
    injection Hd as <-. split; [done|].
    intros f args kwargs res r0 q Hq Hdef Hb.
    assert (q ∉ ev) as Hnot.
    { intros Hin. pose proof (enableCache_assert_no_underscore ev q Ha Hin). congruence. }
    apply bind_arguments_Return_inv in Hb as (r0' & Hdef' & _ & ->).
    assert (r0' = r0) as -> by congruence.
    rewrite lookup_union_r by by apply listed_kwargs_lookup_unlisted.
    rewrite lookup_union_r; [done|]. by apply positional_dict_lookup_unlisted.
Qed.

(** ** The further properties at sample inputs *)

Lemma sample_body_keeps_store : keeps_store sample_body.
Proof. intros args kwargs w. reflexivity. Qed.

(** X1 at [render(5)]: ["order"] holds its default. *)
Lemma bind_arguments_dict_witness :
  exists res, bind_arguments render ["id"; "order"] [VInt 5] ∅ = Return res
              /\ res !! "order" = Some (VStr "asc") /\ res !! "id" = Some (VInt 5).
Proof.
  assert (default_dict render = Return {["order" := VStr "asc"]}) as Hd
    by (vm_compute; reflexivity).
  assert (has_duplicate render ["id"; "order"] [VInt 5] ∅ = false) as Hdup
    by reflexivity.
  destruct (bind_arguments_dict render ["id"; "order"] [VInt 5] ∅
              {["order" := VStr "asc"]} Hd Hdup)
    as (res & Hb & _ & _ & Hpos & Hdef & _).
  exists res. split; [exact Hb|]. split.
  - rewrite (Hdef "order"); [reflexivity|reflexivity|by_computation].
  - apply (Hpos 0%nat "id" (VInt 5)); [by_computation|by_computation|reflexivity..].
Defined.

(** X2 at [render(5)] and [render(6)]. *)
Lemma keyItems_determine_arguments_witness :
  exists l1 l2,
    keyItems render 0 false ["id"; "order"] "/page/view" [VInt 5] ∅ ctx0 = Return (Some l1)
    /\ keyItems render 0 false ["id"; "order"] "/page/view" [VInt 6] ∅ ctx0
       = Return (Some l2)
    /\ l1 <> l2.
Proof.
  assert (keyItems render 0 false ["id"; "order"] "/page/view" [VInt 5] ∅ ctx0
          = Return (Some render5_items)) as H5 by (vm_compute; reflexivity).
  assert (keyItems render 0 false ["id"; "order"] "/page/view" [VInt 6] ∅ ctx0
          = Return (Some render6_items)) as H6 by (vm_compute; reflexivity).
  exists render5_items, render6_items. split; [exact H5|]. split; [exact H6|].
  intros Heq. rewrite <- Heq in H6.
  assert ("id" ∈ ["id"; "order"]) as Hev by by_computation.
  assert ("id" ∉ context_keys) as Hctx by by_computation.
  assert (NoDup (argsOrder render)) as Hnd by by_computation.
  destruct (keyItems_determine_arguments render 0 false ["id"; "order"] "/page/view"
              [VInt 5] [VInt 6] ∅ ∅ ctx0 render5_items "id" H5 H6 Hev Hctx)
    as (_ & Hpos & _).
  discriminate (Hpos 0%nat (VInt 5) (VInt 6) Hnd eq_refl eq_refl eq_refl).
Defined.

(** X3 at [render(5)] under two routes. *)
Lemma keyItems_determine_context_witness :
  exists l1 l2,
    keyItems render 0 false ["id"; "order"] "/page/view" [VInt 5] ∅ ctx0 = Return (Some l1)
    /\ keyItems render 0 false ["id"; "order"] "/pdf/page/view" [VInt 5] ∅ ctx0
       = Return (Some l2)
    /\ l1 <> l2.
Proof.
  assert (keyItems render 0 false ["id"; "order"] "/page/view" [VInt 5] ∅ ctx0
          = Return (Some render5_items)) as H1 by (vm_compute; reflexivity).
  assert (keyItems render 0 false ["id"; "order"] "/pdf/page/view" [VInt 5] ∅ ctx0
          = Return (Some render5_pdf_items)) as H2 by (vm_compute; reflexivity).
  exists render5_items, render5_pdf_items. split; [exact H1|]. split; [exact H2|].
  intros Heq. rewrite <- Heq in H2.
  destruct (keyItems_determine_context _ _ _ _ _ _ _ _ _ _ _ _ _ _ _ _ H1 H2) as (Hp & _).
  discriminate Hp.
Defined.

(** X4 at [render(5, order="asc")] and [render(5)]. *)
Lemma keyFromArgs_default_by_keyword_witness :
  agree (keyFromArgs sample_digest render 0 false ["id"; "order"] "/page/view"
           [VInt 5] (<["order" := VStr "asc"]> ∅) ctx0)
        (keyFromArgs sample_digest render 0 false ["id"; "order"] "/page/view"
           [VInt 5] ∅ ctx0).
Proof.
  apply (keyFromArgs_default_by_keyword sample_digest render 0 false ["id"; "order"]
           "/page/view" [VInt 5] ∅ {["order" := VStr "asc"]} ctx0 "order" (VStr "asc"));
    [reflexivity|reflexivity|by_computation|reflexivity|by_computation].
Defined.

(** X5 at [render(5, "asc", 9)]. *)
Lemma keyFromArgs_ignores_surplus_args_witness :
  keyFromArgs sample_digest render 0 false ["id"; "order"] "/page/view"
    ([VInt 5; VStr "asc"] ++ [VInt 9]) ∅ ctx0
  = keyFromArgs sample_digest render 0 false ["id"; "order"] "/page/view"
      [VInt 5; VStr "asc"] ∅ ctx0.
Proof.
  apply keyFromArgs_ignores_surplus_args. simpl. lia.
Defined.

(** X6 at [view(1, "x")] with only ["key"] allowlisted. *)
Lemma keyFromArgs_unlisted_without_default_witness :
  keyFromArgs sample_digest view 0 false ["key"] "/page/view"
    [VInt 1; VStr "x"] ∅ ctx0 = Return None.
Proof.
  apply (keyFromArgs_unlisted_without_default sample_digest view 0 false ["key"]
           "/page/view" [VInt 1; VStr "x"] ∅ ctx0 "style").
  - by_computation.
  - by_computation.
  - by_computation.
  - by_computation.
  - unfold defaults_fit. simpl. lia.
  - reflexivity.
Defined.

(** X10: a miss at the start of 2020, and the same request 59 seconds
    later. *)
Lemma wrapF_write_through_witness :
  exists res w1 w2,
    wrapF sample_digest render sample_body ["/page/view"] 0 false ["id"; "order"]
      (Some 60) ctx0 [VInt 5] ∅ (world_in_2020 0 ∅) = Return (res, w1)
    /\ res = VStr "fresh"
    /\ wrapF sample_digest render sample_body ["/page/view"] 0 false ["id"; "order"]
         (Some 60) ctx0 [VInt 5] ∅ (later 59000000 w1) = Return (res, w2)
    /\ store w2 = store w1.
Proof.
  assert ("/page/view" ∈ ["/page/view"]) as Hp by by_computation.
  assert (keyFromArgs sample_digest render 0 false ["id"; "order"] (request_path ctx0)
            [VInt 5] ∅ ctx0 = Return (Some sample_key)) as Hkey
    by (vm_compute; reflexivity).
  assert (59000000 < 60 * 1000000) as Hdt by lia.
  assert (store (world_in_2020 0 ∅) !! sample_key = None) as Hmiss
    by (vm_compute; reflexivity).
  assert (cutoff_in_range 60
            (later 59000000
               (sample_body [VInt 5] ∅ (db_Get sample_key (world_in_2020 0 ∅)).2).2))
    as Hin by (unfold cutoff_in_range; vm_compute; intuition discriminate).
  destruct (wrapF_write_through sample_digest sample_digest_nonempty render
              ["/page/view"] 0 false ["id"; "order"] sample_body sample_body (Some 60)
              ctx0 [VInt 5] ∅ (world_in_2020 0 ∅) sample_key 59000000
              eq_refl eq_refl Hp Hkey Hmiss (or_intror (conj Hdt Hin)))
    as (res & w1 & H1 & Hres & H2).
  exists res, w1. eexists. split; [exact H1|]. split; [exact Hres|].
  split; [exact H2|reflexivity].
Defined.

(** X11: without [maxCacheTime] an entry of any age is served. *)
Lemma wrapF_unlimited_witness :
  wrapF sample_digest render sample_body ["/page/view"] 0 false ["id"; "order"]
    None ctx0 [VInt 5] ∅ (world_at 999999999999)
  = Return (VStr "cached",
            {| store := store (world_at 999999999999);
               response_content_type := "text/html";
               now := 999999999999; dblog := [DbGet sample_key] |}).
Proof.
  assert ("/page/view" ∈ ["/page/view"]) as Hp by by_computation.
  assert (keyFromArgs sample_digest render 0 false ["id"; "order"] (request_path ctx0)
            [VInt 5] ∅ ctx0 = Return (Some sample_key)) as Hkey
    by (vm_compute; reflexivity).
  apply (wrapF_unlimited sample_digest sample_digest_nonempty render ["/page/view"] 0
           false ["id"; "order"] sample_body None ctx0 [VInt 5] ∅
           (world_at 999999999999) sample_key
           {| ent_data := VStr "cached"; ent_creationtime := 0;
              ent_path := "/page/view"; ent_content_type := "text/html" |}
           eq_refl eq_refl Hp Hkey eq_refl (or_introl eq_refl)).
Defined.

(** X12 at [render(5, "desc", order="asc")]. *)
Lemma wrapF_duplicate_raises_witness :
  exists k, wrapF sample_digest render sample_body ["/page/view"] 0 false
              ["id"; "order"] (Some 60) ctx0 [VInt 5; VStr "desc"]
              {["order" := VStr "asc"]} (world_at 0)
            = Raise (AssertionError (dupMessage k)).
Proof.
  assert ("/page/view" ∈ ["/page/view"]) as Hp by by_computation.
  assert (defaults_fit render) as Hfit by (unfold defaults_fit; simpl; lia).
  assert ("order" ∈ ["id"; "order"]) as Hev by by_computation.
  assert ("order" ∈ take (length [VInt 5; VStr "desc"]) (argsOrder render)) as Hpos
    by by_computation.
  assert (is_Some (({["order" := VStr "asc"]} : gmap string value) !! "order")) as Hkw
    by by_computation.
  apply (wrapF_duplicate_raises sample_digest render ["/page/view"] 0 false
           ["id"; "order"] sample_body (Some 60) ctx0 [VInt 5; VStr "desc"]
           {["order" := VStr "asc"]} (world_at 0) "order" eq_refl eq_refl Hp Hfit
           Hev Hpos Hkw).
Defined.

(** X13: a logged-in caller under mode 1. *)
Lemma wrapF_uncacheable_runs_handler_witness :
  wrapF sample_digest render sample_body ["/page/view"] 1 false ["id"; "order"]
    (Some 60) (with_user (Some alice) ctx0) [VInt 5] ∅ (world_at 0)
  = Return (sample_body [VInt 5] ∅ (world_at 0)).
Proof.
  assert ("/page/view" ∈ ["/page/view"]) as Hp by by_computation.
  assert (defaults_fit render) as Hfit by (unfold defaults_fit; simpl; lia).
  assert (is_Some (Some alice)) as Hu by by_computation.
  assert (has_duplicate render ["id"; "order"] [VInt 5] ∅ = false) as Hdup
    by reflexivity.
  apply (wrapF_uncacheable_runs_handler sample_digest render ["/page/view"] 1 false
           ["id"; "order"] sample_body (Some 60) (with_user (Some alice) ctx0)
           [VInt 5] ∅ (world_at 0) eq_refl eq_refl Hp Hfit Hdup
           (or_introl (conj eq_refl Hu))).
Defined.

(** X14: the entity written on a miss. *)
Lemma wrapF_store_frame_witness :
  store (db_Put sample_key fresh_entity
           (sample_body [VInt 5] ∅ (db_Get sample_key (with_store ∅ (world_at 0))).2).2)
    !! sample_key
  = Some fresh_entity.
Proof.
  assert (wrapF sample_digest render sample_body ["/page/view"] 0 false ["id"; "order"]
            (Some 60) ctx0 [VInt 5] ∅ (with_store ∅ (world_at 0))
          = Return (VStr "fresh",
                    db_Put sample_key fresh_entity
                      (sample_body [VInt 5] ∅
                         (db_Get sample_key (with_store ∅ (world_at 0))).2).2)) as Hw
    by (vm_compute; reflexivity).
  destruct (wrapF_store_frame sample_digest render ["/page/view"] 0 false
              ["id"; "order"] sample_body (Some 60) ctx0 [VInt 5] ∅ _ _ _
              sample_body_keeps_store Hw) as (Hframe & _ & _).
  destruct (Hframe sample_key) as [Hsame|[_ Hnew]].
  - discriminate Hsame.
  - exact Hnew.
Defined.

(** X15: after [flushCache "/page/*"] the request for ["/page/view"] is a
    miss. *)
Lemma wrapF_after_flush_witness :
  wrapF sample_digest render sample_body ["/page/view"] 0 false ["id"; "order"]
    (Some 60) ctx0 [VInt 5] ∅
    (with_store (flushCache "/page/*" (store (world_at 0))) (world_at 0))
  = Return (rebuild sample_body sample_key (request_path ctx0) [VInt 5] ∅
              (db_Get sample_key
                 (with_store (flushCache "/page/*" (store (world_at 0))) (world_at 0))).2).
Proof.
  assert ("/page/view" ∈ ["/page/view"]) as Hp by by_computation.
  assert (keyFromArgs sample_digest render 0 false ["id"; "order"] (request_path ctx0)
            [VInt 5] ∅ ctx0 = Return (Some sample_key)) as Hkey
    by (vm_compute; reflexivity).
  apply (wrapF_after_flush sample_digest sample_digest_nonempty render ["/page/view"]
           0 false ["id"; "order"] sample_body (Some 60) ctx0 [VInt 5] ∅ (world_at 0)
           sample_key
           {| ent_data := VStr "cached"; ent_creationtime := 0;
              ent_path := "/page/view"; ent_content_type := "text/html" |}
           "/page/*" eq_refl eq_refl Hp Hkey eq_refl).
  reflexivity.
Defined.

(** X19: ["/page/*"] covers ["/page/view/*"]. *)
Lemma flushCache_wildcard_covers_witness :
  flushCache "/page/*" (flushCache "/page/view/*" sample_store)
  = flushCache "/page/*" sample_store.
Proof.
  apply (flushCache_wildcard_covers "/page/*" "/page/view/*" "view/" sample_store);
    reflexivity.
Defined.

(** X20: ["/page/*"] keeps ["/page"]. *)
Lemma flushCache_wildcard_keeps_parent_witness :
  flushCache ("/page" ++ "/*") sample_store !! "k1" = Some (entity_at "/page").
Proof.
  apply flushCache_wildcard_keeps_parent; reflexivity.
Defined.

(** X21: the default prefix on a store with one entry. *)
Lemma flushCache_default_empties_witness :
  flushCache "/*" {["k1" := entity_at "/page"]} = ∅.
Proof.
  apply flushCache_default_empties. intros k e Hk.
  apply lookup_singleton_Some in Hk as [_ <-].
  right. exists "p"%char, "age". split; reflexivity.
Defined.

(** X9 at [render(5)]. *)
Lemma keyItems_shape_witness :
  Sorted key_le render5_items /\ NoDup render5_items.*1 /\
  ("__path", VStr "/page/view") ∈ render5_items.
Proof.
  assert (keyItems render 0 false ["id"; "order"] "/page/view" [VInt 5] ∅ ctx0
          = Return (Some render5_items)) as H5 by (vm_compute; reflexivity).
  destruct (keyItems_shape render 0 false ["id"; "order"] "/page/view" [VInt 5] ∅ ctx0
              render5_items H5) as (Hs & Hnd & Hp & _).
  split; [exact Hs|]. split; [exact Hnd|exact Hp].
Defined.
